(** * Chat-app front end (frontend/src/App.js): client session model

    A shallow embedding of the React client: the three components
    ([UsernameModal], [ChatRoom], [App]), the socket events they emit and
    receive, and the browser timer queue behind [setTimeout] /
    [clearTimeout].  React state is an explicit record; every handler of
    the source is a function on that record. *)

From Stdlib Require Import List NArith PArith Bool String Ascii Lia Sorted.
Import ListNotations.
Open Scope N_scope.

(** ** JavaScript strings *)

(** A JavaScript string is a sequence of UTF-16 code units. *)
Definition jsstring := list N.

Definition js (s : string) : jsstring :=
  map N_of_ascii (list_ascii_of_string s).

Fixpoint jsstring_eqb (a b : jsstring) : bool :=
  match a, b with
  | [], [] => true
  | x :: a', y :: b' => (x =? y) && jsstring_eqb a' b'
  | _, _ => false
  end.

(** [WhiteSpace] and [LineTerminator] of ECMAScript: the code units that
    [String.prototype.trim] strips. *)
Definition is_white (c : N) : bool :=
  (c =? 9) || (c =? 10) || (c =? 11) || (c =? 12) || (c =? 13) ||
  (c =? 32) || (c =? 160) || (c =? 5760) ||
  ((8192 <=? c) && (c <=? 8202)) ||
  (c =? 8232) || (c =? 8233) || (c =? 8239) || (c =? 8287) ||
  (c =? 12288) || (c =? 65279).

Fixpoint trimStart (s : jsstring) : jsstring :=
  match s with
  | c :: s' => if is_white c then trimStart s' else s
  | [] => []
  end.

Definition trimEnd (s : jsstring) : jsstring := rev (trimStart (rev s)).

Definition trim (s : jsstring) : jsstring := trimEnd (trimStart s).

(** Truthiness of a string: every string but the empty one. *)
Definition truthy (s : jsstring) : bool :=
  match s with [] => false | _ :: _ => true end.

(** ** Payloads *)

(** A property of a received object that should hold an array: it may be
    missing ([undefined]), [null], or the array. *)
Inductive field (A : Type) : Type :=
| Absent
| Null
| Present (a : A).
Arguments Absent {A}.
Arguments Null {A}.
Arguments Present {A} a.

(** [f || []] : an array is truthy, even the empty one. *)
Definition or_empty {A : Type} (f : field (list A)) : list A :=
  match f with
  | Present l => l
  | Absent | Null => []
  end.

(** The result of running an event handler: it returns, or the access of
    a property of [undefined] throws. *)
Inductive outcome (A : Type) : Type :=
| Done (a : A)
| TypeError.
Arguments Done {A} a.
Arguments TypeError {A}.

Record Room := { room_id : jsstring; room_name : jsstring }.

Record User := { user_username : jsstring }.

(** A message as the server broadcasts it.  [msg_room_id] is the room the
    server tagged it with. *)
Record Message := {
  msg_username : jsstring;
  msg_message : jsstring;
  msg_timestamp : N;
  msg_room_id : jsstring
}.

Record RoomJoinedData := {
  rj_messages : field (list Message);
  rj_users : field (list User)
}.

Record UsersData := { ud_users : field (list User) }.

Record TypingData := { td_username : jsstring; td_is_typing : bool }.

(** Events the client emits on the socket. *)
Inductive OutEvent : Type :=
| join_room (username room : jsstring)
| leave_room (room : jsstring)
| send_message (room message : jsstring)
| typing (room : jsstring) (is_typing : bool).

(** Events the server sends; the payload is [None] when the event comes
    without one. *)
Inductive InEvent : Type :=
| room_joined (data : option RoomJoinedData)
| new_message (message : Message)
| user_joined (data : option UsersData)
| user_left (data : option UsersData)
| user_typing (data : option TypingData).

(** ** State *)

(** [appState] of [App]: 'username', 'rooms' or 'chat'. *)
Inductive Phase : Type := phase_username | phase_rooms | phase_chat.

(** A pending [setTimeout].  The only callback the program registers is
    the one of [handleTyping], which emits [typing {room_id, false}] for
    the room of the render that created it; the timer keeps that room. *)
Record Timer := { tid : positive; due : N; timer_room : jsstring }.

(** State, props and refs of a mounted [ChatRoom]. *)
Record ChatRoomState := {
  room : Room;
  username : jsstring;
  messages : list Message;
  newMessage : jsstring;
  onlineUsers : list User;
  typingUsers : list jsstring;
  typingTimeoutRef : option positive
}.

(** The client: the socket of [SocketProvider], the state of
    [UsernameModal] and [App], the mounted [ChatRoom] if any, and the
    browser side (clock in milliseconds, timer queue, events written to
    the socket so far, each with the time it was emitted). *)
Record World := {
  socket : bool;
  modal_username : jsstring;
  app_username : jsstring;
  currentRoom : option Room;
  appState : Phase;
  chat : option ChatRoomState;
  clock : N;
  next_timer : positive;
  timers : list Timer;
  outbox : list (N * OutEvent)
}.

Definition set_chat (c : option ChatRoomState) (w : World) : World :=
  {| socket := socket w; modal_username := modal_username w;
     app_username := app_username w; currentRoom := currentRoom w;
     appState := appState w; chat := c; clock := clock w;
     next_timer := next_timer w; timers := timers w; outbox := outbox w |}.

Definition set_modal_username (v : jsstring) (w : World) : World :=
  {| socket := socket w; modal_username := v;
     app_username := app_username w; currentRoom := currentRoom w;
     appState := appState w; chat := chat w; clock := clock w;
     next_timer := next_timer w; timers := timers w; outbox := outbox w |}.

(** [socket.emit]: the event goes out at the current time. *)
Definition emit (e : OutEvent) (w : World) : World :=
  {| socket := socket w; modal_username := modal_username w;
     app_username := app_username w; currentRoom := currentRoom w;
     appState := appState w; chat := chat w; clock := clock w;
     next_timer := next_timer w; timers := timers w;
     outbox := outbox w ++ [(clock w, e)] |}.

(** [setTimeout(cb, delay)]: a fresh handle, due [delay] ms from now. *)
Definition setTimeout (cb_room : jsstring) (delay : N) (w : World)
  : positive * World :=
  let id := next_timer w in
  (id,
   {| socket := socket w; modal_username := modal_username w;
      app_username := app_username w; currentRoom := currentRoom w;
      appState := appState w; chat := chat w; clock := clock w;
      next_timer := Pos.succ id;
      timers := timers w ++
                [{| tid := id; due := clock w + delay; timer_room := cb_room |}];
      outbox := outbox w |}).

(** [clearTimeout(id)]: drops the timer if it is still pending. *)
Definition clearTimeout (id : positive) (w : World) : World :=
  {| socket := socket w; modal_username := modal_username w;
     app_username := app_username w; currentRoom := currentRoom w;
     appState := appState w; chat := chat w; clock := clock w;
     next_timer := next_timer w;
     timers := filter (fun tm => negb (Pos.eqb (tid tm) id)) (timers w);
     outbox := outbox w |}.

(** What a timer writes to the socket when it fires. *)
Definition fire (tm : Timer) : N * OutEvent :=
  (due tm, typing (timer_room tm) false).

Definition is_due (t : N) (tm : Timer) : bool := due tm <=? t.

(** Time passes until [t]: every timer due by then runs, oldest first
    (all delays are equal, so the queue is in firing order). *)
Definition advance (t : N) (w : World) : World :=
  {| socket := socket w; modal_username := modal_username w;
     app_username := app_username w; currentRoom := currentRoom w;
     appState := appState w; chat := chat w;
     clock := N.max (clock w) t;
     next_timer := next_timer w;
     timers := filter (fun tm => negb (is_due t tm)) (timers w);
     outbox := outbox w ++ map fire (filter (is_due t) (timers w)) |}.

(** ** UsernameModal *)

Module UsernameModal.

(** [onChange] of the input. *)
Definition setUsername (v : jsstring) (w : World) : World :=
  set_modal_username v w.

(** [handleSubmit], with [onSetUsername] passed in as a continuation. *)
Definition handleSubmit (onSetUsername : jsstring -> World -> World)
                        (w : World) : World :=
  if truthy (trim (modal_username w))
  then onSetUsername (trim (modal_username w)) w
  else w.

End UsernameModal.

(** ** ChatRoom *)

Module ChatRoom.

Definition setMessages (v : list Message) (c : ChatRoomState) :=
  {| room := room c; username := username c; messages := v;
     newMessage := newMessage c; onlineUsers := onlineUsers c;
     typingUsers := typingUsers c;
     typingTimeoutRef := typingTimeoutRef c |}.

Definition setNewMessage (v : jsstring) (c : ChatRoomState) :=
  {| room := room c; username := username c; messages := messages c;
     newMessage := v; onlineUsers := onlineUsers c;
     typingUsers := typingUsers c;
     typingTimeoutRef := typingTimeoutRef c |}.

Definition setOnlineUsers (v : list User) (c : ChatRoomState) :=
  {| room := room c; username := username c; messages := messages c;
     newMessage := newMessage c; onlineUsers := v;
     typingUsers := typingUsers c;
     typingTimeoutRef := typingTimeoutRef c |}.

Definition setTypingUsers (v : list jsstring) (c : ChatRoomState) :=
  {| room := room c; username := username c; messages := messages c;
     newMessage := newMessage c; onlineUsers := onlineUsers c;
     typingUsers := v;
     typingTimeoutRef := typingTimeoutRef c |}.

Definition set_typingTimeoutRef (v : option positive) (c : ChatRoomState) :=
  {| room := room c; username := username c; messages := messages c;
     newMessage := newMessage c; onlineUsers := onlineUsers c;
     typingUsers := typingUsers c;
     typingTimeoutRef := v |}.

(** The [room] prop of a mounted instance changes; its state and refs
    stay. *)
Definition set_room (r : Room) (c : ChatRoomState) :=
  {| room := r; username := username c; messages := messages c;
     newMessage := newMessage c; onlineUsers := onlineUsers c;
     typingUsers := typingUsers c;
     typingTimeoutRef := typingTimeoutRef c |}.

(** A fresh instance, as [useState] and [useRef] initialise it. *)
Definition initial (r : Room) (u : jsstring) : ChatRoomState :=
  {| room := r; username := u; messages := []; newMessage := [];
     onlineUsers := []; typingUsers := []; typingTimeoutRef := None |}.

(** *** Socket listeners registered by the effect *)

Definition on_room_joined (data : option RoomJoinedData)
                          (c : ChatRoomState) : outcome ChatRoomState :=
  match data with
  | None => TypeError
  | Some d =>
      Done (setOnlineUsers (or_empty (rj_users d))
              (setMessages (or_empty (rj_messages d)) c))
  end.

Definition on_new_message (message : Message) (c : ChatRoomState)
  : outcome ChatRoomState :=
  Done (setMessages (messages c ++ [message]) c).

Definition on_user_joined (data : option UsersData) (c : ChatRoomState)
  : outcome ChatRoomState :=
  match data with
  | None => TypeError
  | Some d => Done (setOnlineUsers (or_empty (ud_users d)) c)
  end.

Definition on_user_left (data : option UsersData) (c : ChatRoomState)
  : outcome ChatRoomState :=
  match data with
  | None => TypeError
  | Some d => Done (setOnlineUsers (or_empty (ud_users d)) c)
  end.

(** [prev.filter(u => u !== name)] *)
Definition without (name : jsstring) (prev : list jsstring) :=
  filter (fun u => negb (jsstring_eqb u name)) prev.

Definition on_user_typing (data : option TypingData) (c : ChatRoomState)
  : outcome ChatRoomState :=
  match data with
  | None => TypeError
  | Some d =>
      if td_is_typing d
      then Done (setTypingUsers
                   (without (td_username d) (typingUsers c) ++ [td_username d]) c)
      else Done (setTypingUsers (without (td_username d) (typingUsers c)) c)
  end.

Definition listener (e : InEvent) : ChatRoomState -> outcome ChatRoomState :=
  match e with
  | room_joined data => on_room_joined data
  | new_message m => on_new_message m
  | user_joined data => on_user_joined data
  | user_left data => on_user_left data
  | user_typing data => on_user_typing data
  end.

(** The body of the effect, run when the component mounts. *)
Definition effect (c : ChatRoomState) (w : World) : World :=
  if socket w
  then emit (join_room (username c) (room_id (room c))) w
  else w.

(** *** Handlers of the form and of the Leave button *)

Definition handleSendMessage (c : ChatRoomState) (w : World) : World :=
  if truthy (trim (newMessage c)) && socket w
  then
    let w1 := emit (send_message (room_id (room c)) (trim (newMessage c))) w in
    let w2 := set_chat (Some (setNewMessage [] c)) w1 in
    emit (typing (room_id (room c)) false) w2
  else w.

Definition handleTyping (value : jsstring) (c : ChatRoomState) (w : World)
  : World :=
  let c1 := setNewMessage value c in
  if socket w
  then
    let w1 := emit (typing (room_id (room c)) true) w in
    let w2 := match typingTimeoutRef c with
              | Some id => clearTimeout id w1
              | None => w1
              end in
    let '(id, w3) := setTimeout (room_id (room c)) 1000 w2 in
    set_chat (Some (set_typingTimeoutRef (Some id) c1)) w3
  else set_chat (Some c1) w.

Definition handleLeaveRoom (onLeaveRoom : World -> World)
                           (c : ChatRoomState) (w : World) : World :=
  let w1 := if socket w then emit (leave_room (room_id (room c))) w else w in
  onLeaveRoom w1.

(** Rendering: the test that picks the bubble of one's own messages. *)
Definition is_own (c : ChatRoomState) (message : Message) : bool :=
  jsstring_eqb (msg_username message) (username c).

End ChatRoom.

(** ** App *)

Module App.

Definition handleSetUsername (name : jsstring) (w : World) : World :=
  {| socket := socket w; modal_username := modal_username w;
     app_username := name; currentRoom := currentRoom w;
     appState := phase_rooms; chat := chat w; clock := clock w;
     next_timer := next_timer w; timers := timers w; outbox := outbox w |}.

(** [handleJoinRoom]: the next render mounts a fresh [ChatRoom] for
    [room], whose effect then runs. *)
Definition handleJoinRoom (r : Room) (w : World) : World :=
  let c := ChatRoom.initial r (app_username w) in
  ChatRoom.effect c
    {| socket := socket w; modal_username := modal_username w;
       app_username := app_username w; currentRoom := Some r;
       appState := phase_chat; chat := Some c; clock := clock w;
       next_timer := next_timer w; timers := timers w;
       outbox := outbox w |}.

(** [handleCreateRoom], the [onCreateRoom] that the answer to the POST
    of [RoomSelection.handleCreateRoom] calls.  Its body is the one of
    [handleJoinRoom], but the answer can come when a [ChatRoom] is
    already on screen: then the next render keeps that instance, with
    its state and refs, and hands it the new [room]; the effect depends
    on [room], so its cleanup runs (the listeners go off) and its body
    runs again (join, listeners on again).  With no [ChatRoom] on
    screen a fresh one is mounted. *)
Definition handleCreateRoom (r : Room) (w : World) : World :=
  match chat w with
  | Some c =>
      let c' := ChatRoom.set_room r c in
      ChatRoom.effect c'
        {| socket := socket w; modal_username := modal_username w;
           app_username := app_username w; currentRoom := Some r;
           appState := phase_chat; chat := Some c'; clock := clock w;
           next_timer := next_timer w; timers := timers w;
           outbox := outbox w |}
  | None => handleJoinRoom r w
  end.

(** [handleLeaveRoom]: the next render unmounts the [ChatRoom]; the
    cleanup of its effect takes the five listeners off the socket. *)
Definition handleLeaveRoom (w : World) : World :=
  {| socket := socket w; modal_username := modal_username w;
     app_username := app_username w; currentRoom := None;
     appState := phase_rooms; chat := None; clock := clock w;
     next_timer := next_timer w; timers := timers w; outbox := outbox w |}.

(** The page as first shown, once [SocketProvider] holds its socket. *)
Definition start : World :=
  {| socket := true; modal_username := []; app_username := [];
     currentRoom := None; appState := phase_username; chat := None;
     clock := 0; next_timer := 1%positive; timers := []; outbox := [] |}.

End App.

(** ** The event loop *)

(** What can happen to the page: the user acts on the component that is
    on screen, the server sends an event, or the server answers a room
    creation asked for from the room list ([RoomCreated], with the room
    it made). *)
Inductive Action : Type :=
| EditUsername (value : jsstring)
| SubmitUsername
| SelectRoom (r : Room)
| Keystroke (value : jsstring)
| SubmitMessage
| ClickLeave
| Receive (e : InEvent)
| RoomCreated (r : Room).

(** An inbound event reaches the listeners of the mounted [ChatRoom];
    with none registered it is dropped.  A listener that throws leaves
    the state as it was. *)
Definition deliver (e : InEvent) (w : World) : World :=
  match chat w with
  | Some c =>
      if socket w
      then match ChatRoom.listener e c with
           | Done c' => set_chat (Some c') w
           | TypeError => w
           end
      else w
  | None => w
  end.

Definition perform (a : Action) (w : World) : World :=
  match a, appState w, chat w with
  | EditUsername v, phase_username, _ => UsernameModal.setUsername v w
  | SubmitUsername, phase_username, _ =>
      UsernameModal.handleSubmit App.handleSetUsername w
  | SelectRoom r, phase_rooms, _ => App.handleJoinRoom r w
  | Keystroke v, phase_chat, Some c => ChatRoom.handleTyping v c w
  | SubmitMessage, phase_chat, Some c => ChatRoom.handleSendMessage c w
  | ClickLeave, phase_chat, Some c =>
      ChatRoom.handleLeaveRoom App.handleLeaveRoom c w
  | Receive e, _, _ => deliver e w
  | RoomCreated r, phase_rooms, _ => App.handleCreateRoom r w
  | RoomCreated r, phase_chat, _ => App.handleCreateRoom r w
  | _, _, _ => w
  end.

(** One action at time [t]: the timers due by [t] run first. *)
Definition step (w : World) (ta : N * Action) : World :=
  perform (snd ta) (advance (fst ta) w).

Definition run (w : World) (l : list (N * Action)) : World :=
  fold_left step l w.

(** The outbound [typing] events of a log. *)
Definition is_typing_event (is_typing : bool) (e : N * OutEvent) : bool :=
  match snd e with
  | typing _ b => Bool.eqb b is_typing
  | _ => false
  end.

Definition typing_count (is_typing : bool) (log : list (N * OutEvent)) : nat :=
  List.length (filter (is_typing_event is_typing) log).

(** Some concrete data for the examples. *)
Definition R1 : Room := {| room_id := js "r1"; room_name := js "general" |}.
Definition R2 : Room := {| room_id := js "r2"; room_name := js "random" |}.

(** A user named alice, in room [R1], nothing typed yet. *)
Definition in_R1 : World :=
  run App.start
    [(0, EditUsername (js " alice ")); (0, SubmitUsername); (0, SelectRoom R1)].

(** ** Schedules *)

(** A run of keystrokes, each with the time it happens at and the text
    the input holds after it. *)
Definition keystrokes (ks : list (N * jsstring)) : list (N * Action) :=
  map (fun k => (fst k, Keystroke (snd k))) ks.

(** Every keystroke comes at or after the one before it, and less than
    1000 ms after it. *)
Fixpoint burst (prev : N) (ks : list (N * jsstring)) : bool :=
  match ks with
  | [] => true
  | k :: ks' => (prev <=? fst k) && (fst k <? prev + 1000) && burst (fst k) ks'
  end.

Definition last_time (t0 : N) (ks : list (N * jsstring)) : N :=
  last (map fst ks) t0.

Definition typing_starts (rid : jsstring) (ks : list (N * jsstring))
  : list (N * OutEvent) :=
  map (fun k => (fst k, typing rid true)) ks.

Definition is_leave (a : Action) : bool :=
  match a with ClickLeave => true | _ => false end.

(** A schedule during which the user stays in the room. *)
Definition stays (l : list (N * Action)) : bool :=
  forallb (fun ta => negb (is_leave (snd ta))) l.

Definition is_creation (a : Action) : bool :=
  match a with RoomCreated _ => true | _ => false end.

(** A schedule during which no room creation is answered. *)
Definition no_creation (l : list (N * Action)) : bool :=
  forallb (fun ta => negb (is_creation (snd ta))) l.

(** The timers created since the handle counter stood at [base]. *)
Definition created_since (base : positive) (w : World) : list Timer :=
  filter (fun tm => (base <=? tid tm)%positive) (timers w).

(** Where a name stands in the typing list. *)
Fixpoint position (name : jsstring) (l : list jsstring) : option nat :=
  match l with
  | [] => None
  | u :: l' => if jsstring_eqb u name then Some O
               else option_map S (position name l')
  end.

(** A [ChatRoom] is on screen, the socket is there and no timer is
    pending. *)
Definition idle (c : ChatRoomState) (w : World) : Prop :=
  appState w = phase_chat /\ chat w = Some c /\ socket w = true /\
  timers w = [].

(** The user of room [r] typed last at [t], and the timer set then is the
    only one pending. *)
Definition armed (r : Room) (t : N) (w : World) : Prop :=
  appState w = phase_chat /\ socket w = true /\ clock w = t /\
  exists c id,
    chat w = Some c /\ room c = r /\ typingTimeoutRef c = Some id /\
    timers w = [{| tid := id; due := t + 1000; timer_room := room_id r |}].

(** No pending timer has a handle the counter has yet to give out. *)
Definition handles_fresh (w : World) : Prop :=
  Forall (fun tm => (tid tm < next_timer w)%positive) (timers w).

(** A [ChatRoom] for room [r] is on screen, and of the timers created
    since the counter stood at [base] at most one is pending: the one
    its [typingTimeoutRef] holds, whose callback writes for room [r]. *)
Definition one_own_timer (r : Room) (base : positive) (w : World) : Prop :=
  appState w = phase_chat /\ (base <= next_timer w)%positive /\
  exists c, chat w = Some c /\ room c = r /\
    (created_since base w = [] \/
     exists tm, created_since base w = [tm] /\
                typingTimeoutRef c = Some (tid tm) /\
                timer_room tm = room_id r).

(** ** Logs and schedules of a whole session *)

(** A run of [new_message] deliveries, each with its arrival time. *)
Definition deliveries (ms : list (N * Message)) : list (N * Action) :=
  map (fun tm => (fst tm, Receive (new_message (snd tm)))) ms.

(** The event came without a payload, and its listener reads a property
    of it. *)
Definition no_payload (e : InEvent) : bool :=
  match e with
  | room_joined None | user_joined None | user_left None
  | user_typing None => true
  | _ => false
  end.

(** Keystroke times that never go back, none of them falling on the very
    millisecond the timer of the keystroke before is due. *)
Fixpoint untied (prev : N) (ks : list (N * jsstring)) : bool :=
  match ks with
  | [] => true
  | k :: ks' =>
      (prev <=? fst k) && negb (fst k =? prev + 1000) && untied (fst k) ks'
  end.

(** What goes out after a keystroke at [prev] when the keystrokes [ks]
    follow and then nothing: a stop 1000 ms after every keystroke that
    the next one does not come in time to replace, a start at every
    keystroke. *)
Fixpoint typing_trace (rid : jsstring) (prev : N) (ks : list (N * jsstring))
  : list (N * OutEvent) :=
  match ks with
  | [] => [(prev + 1000, typing rid false)]
  | k :: ks' =>
      (if prev + 1000 <? fst k then [(prev + 1000, typing rid false)] else [])
      ++ (fst k, typing rid true) :: typing_trace rid (fst k) ks'
  end.

(** [App] and the mounted [ChatRoom] agree: a [ChatRoom] is on screen
    exactly in the 'chat' state, for [currentRoom] and for the user name
    [App] holds. *)
Definition consistent (w : World) : Prop :=
  match appState w with
  | phase_chat =>
      exists r c, currentRoom w = Some r /\ chat w = Some c /\
                  room c = r /\ username c = app_username w
  | _ => currentRoom w = None /\ chat w = None
  end.

(** A string that is not empty and has no white space at either end. *)
Definition well_formed (s : jsstring) : Prop := s <> [] /\ trim s = s.

Definition well_formed_out (e : OutEvent) : Prop :=
  match e with
  | join_room u _ => well_formed u
  | send_message _ m => well_formed m
  | _ => True
  end.

(** Reading a log from the server's side: which room the client is in.
    [None] when the log breaks the order: a join while in a room, a leave
    of another room than the one joined, a message or a typing start for
    another room than the one joined. *)
Fixpoint session (cur : option jsstring) (log : list (N * OutEvent))
  : option (option jsstring) :=
  match log with
  | [] => Some cur
  | (_, join_room _ r) :: l =>
      match cur with
      | None => session (Some r) l
      | Some _ => None
      end
  | (_, leave_room r) :: l =>
      match cur with
      | Some r' => if jsstring_eqb r r' then session None l else None
      | None => None
      end
  | (_, send_message r _) :: l | (_, typing r true) :: l =>
      match cur with
      | Some r' => if jsstring_eqb r r' then session cur l else None
      | None => None
      end
  | (_, typing _ false) :: l => session cur l
  end.

(** The page on its very first render: [SocketProvider] has not yet
    created the socket ([useState(null)]). *)
Definition first_render : World :=
  {| socket := false; modal_username := []; app_username := [];
     currentRoom := None; appState := phase_username; chat := None;
     clock := 0; next_timer := 1%positive; timers := []; outbox := [] |}.

(** The log is in time order and ends no later than now; the pending
    timers are in the order they are due, each due after now and at most
    1000 ms from now. *)
Definition on_time (w : World) : Prop :=
  StronglySorted N.le (map fst (outbox w)) /\
  Forall (fun te => fst te <= clock w) (outbox w) /\
  StronglySorted N.le (map due (timers w)) /\
  Forall (fun tm => clock w < due tm <= clock w + 1000) (timers w).

(** A typing start for room [r] is in the log. *)
Definition started (r : jsstring) (log : list (N * OutEvent)) : Prop :=
  exists t, In (t, typing r true) log.

(** Every typing stop in the log comes after a typing start for the
    same room. *)
Definition stops_follow_starts (log : list (N * OutEvent)) : Prop :=
  forall n t r,
    nth_error log n = Some (t, typing r false) ->
    exists m t', (m < n)%nat /\ nth_error log m = Some (t', typing r true).

(** The stops written so far follow starts, and so will those to come:
    the ones of the pending timers, and the one a send would write. *)
Definition typing_sound (w : World) : Prop :=
  stops_follow_starts (outbox w) /\
  (forall tm, In tm (timers w) -> started (timer_room tm) (outbox w)) /\
  (forall c, chat w = Some c -> newMessage c <> [] ->
             started (room_id (room c)) (outbox w)).

(** A run of inbound events, each with its arrival time. *)
Definition receptions (es : list (N * InEvent)) : list (N * Action) :=
  map (fun te => (fst te, Receive (snd te))) es.

(** The [users] property an event brings for the list of online users,
    if it is one of the three events whose listener sets that list and
    it has a payload. *)
Definition membership (e : InEvent) : option (field (list User)) :=
  match e with
  | room_joined (Some d) => Some (rj_users d)
  | user_joined (Some d) | user_left (Some d) => Some (ud_users d)
  | _ => None
  end.

Definition no_membership (es : list (N * InEvent)) : bool :=
  forallb (fun te => match membership (snd te) with
                     | None => true
                     | Some _ => false
                     end) es.

(** * Properties *)

(** ** Strings *)

Lemma jsstring_eqb_eq (a b : jsstring) : jsstring_eqb a b = true <-> a = b.
Proof.
  revert b; induction a as [|x a IH]; intros [|y b]; simpl;
    try (split; [discriminate | intros H; inversion H]); try tauto.
  rewrite andb_true_iff, N.eqb_eq, IH.
  split; [intros [-> ->]; reflexivity | intros H; inversion H; auto].
Qed.

Lemma jsstring_eqb_refl (a : jsstring) : jsstring_eqb a a = true.
Proof. apply jsstring_eqb_eq; reflexivity. Qed.

(** [trimStart] removes a prefix of white space, and what is left does
    not start with white space. *)
Lemma trimStart_spec (s : jsstring) :
  exists pre, s = pre ++ trimStart s /\ forallb is_white pre = true /\
              (forall c rest, trimStart s = c :: rest -> is_white c = false).
Proof.
  induction s as [|c s (pre & Hs & Hpre & Hhd)]; simpl.
  - exists []; repeat split; intros; discriminate.
  - destruct (is_white c) eqn:Hc.
    + exists (c :: pre); simpl; rewrite Hc, Hpre; repeat split; auto.
      now rewrite <- Hs.
    + exists []; repeat split; intros c' rest H; inversion H; subst; auto.
Qed.

Lemma forallb_rev {A} (f : A -> bool) (l : list A) :
  forallb f (rev l) = forallb f l.
Proof.
  induction l as [|a l IH]; simpl; auto.
  rewrite forallb_app, IH; simpl; rewrite andb_true_r, andb_comm; reflexivity.
Qed.

(** [trim] keeps a middle part of the string and drops white space only;
    the part kept neither starts nor ends with white space. *)
Lemma trim_spec (s : jsstring) :
  exists pre post,
    s = pre ++ trim s ++ post /\
    forallb is_white pre = true /\ forallb is_white post = true /\
    (forall c rest, trim s = c :: rest -> is_white c = false) /\
    (forall c rest, trim s = rest ++ [c] -> is_white c = false).
Proof.
  unfold trim, trimEnd.
  destruct (trimStart_spec s) as (pre & Hs & Hpre & Hhd).
  destruct (trimStart_spec (rev (trimStart s))) as (q & Hr & Hq & Hlast).
  set (m := trimStart (rev (trimStart s))) in *.
  assert (Hm : trimStart s = rev m ++ rev q).
  { rewrite <- rev_app_distr, <- Hr, rev_involutive; reflexivity. }
  exists pre, (rev q); repeat split.
  - rewrite <- Hm; exact Hs.
  - exact Hpre.
  - rewrite forallb_rev; exact Hq.
  - intros c rest H. destruct m as [|x m'] eqn:Em; [discriminate|].
    apply (Hhd c (rest ++ rev q)). rewrite Hm, H; reflexivity.
  - intros c rest H. apply (Hlast c (rev rest)).
    rewrite <- (rev_involutive m), H, rev_app_distr; reflexivity.
Qed.

(** ** The typing list *)

Lemma without_idem (name : jsstring) (l : list jsstring) :
  ChatRoom.without name (ChatRoom.without name l) = ChatRoom.without name l.
Proof.
  unfold ChatRoom.without; induction l as [|u l IH]; simpl; auto.
  destruct (jsstring_eqb u name) eqn:E; simpl; rewrite ?E; simpl; congruence.
Qed.

Lemma without_absent (name : jsstring) (l : list jsstring) :
  existsb (jsstring_eqb name) l = false -> ChatRoom.without name l = l.
Proof.
  unfold ChatRoom.without; induction l as [|u l IH]; simpl; auto.
  rewrite orb_false_iff; intros [Hu Hl].
  destruct (jsstring_eqb u name) eqn:E; simpl.
  - apply jsstring_eqb_eq in E; subst. rewrite jsstring_eqb_refl in Hu; discriminate.
  - rewrite IH; auto.
Qed.

Lemma without_self (name : jsstring) (l : list jsstring) :
  ChatRoom.without name (l ++ [name]) = ChatRoom.without name l.
Proof.
  unfold ChatRoom.without; rewrite filter_app; simpl.
  rewrite jsstring_eqb_refl; simpl; apply app_nil_r.
Qed.

Lemma without_not_in (name : jsstring) (l : list jsstring) :
  ~ In name (ChatRoom.without name l).
Proof.
  unfold ChatRoom.without; rewrite filter_In; intros [_ H].
  rewrite jsstring_eqb_refl in H; discriminate.
Qed.

(** ** Inbound events *)

(** C4 (as the code has it): a [user_typing] event with [is_typing] true
    always succeeds; a second identical event changes nothing; the name
    ends up last: when it was in the list its old entries are taken out
    and it is put at the end, when it was not it is appended. *)
Theorem user_typing_true_moves_to_end (c : ChatRoomState) (name : jsstring) :
  let d := {| td_username := name; td_is_typing := true |} in
  let c1 := ChatRoom.setTypingUsers
              (ChatRoom.without name (typingUsers c) ++ [name]) c in
  ChatRoom.listener (user_typing (Some d)) c = Done c1 /\
  ChatRoom.listener (user_typing (Some d)) c1 = Done c1 /\
  typingUsers c1 =
    (if existsb (jsstring_eqb name) (typingUsers c)
     then ChatRoom.without name (typingUsers c) ++ [name]
     else typingUsers c ++ [name]) /\
  ~ In name (removelast (typingUsers c1)) /\
  last (typingUsers c1) [] = name.
Proof.
  simpl; repeat split.
  - unfold ChatRoom.on_user_typing; simpl.
    rewrite without_self, without_idem; reflexivity.
  - destruct (existsb _ _) eqn:E; [reflexivity|].
    rewrite without_absent; auto.
  - rewrite removelast_last; apply without_not_in.
  - apply last_last.
Qed.

(** C4, counterexample: with alice and bob typing, in this order, a
    repeated start signal of alice moves her behind bob. *)
Lemma user_typing_repeat_reorders :
  ChatRoom.listener
    (user_typing (Some {| td_username := js "alice"; td_is_typing := true |}))
    (ChatRoom.setTypingUsers [js "alice"; js "bob"] (ChatRoom.initial R1 (js "carol")))
  = Done (ChatRoom.setTypingUsers [js "bob"; js "alice"]
            (ChatRoom.initial R1 (js "carol"))) /\
  position (js "alice") [js "alice"; js "bob"] = Some 0%nat /\
  position (js "alice") [js "bob"; js "alice"] = Some 1%nat.
Proof. repeat split. Qed.

(** C6: whatever the list of online users was, a [room_joined],
    [user_joined] or [user_left] event that carries a [users] array
    leaves exactly that array; from a and b, [user_left] with [a]
    leaves [a]. *)
Theorem membership_replaced_wholesale
  (c : ChatRoomState) (us : list User) (ms : field (list Message)) :
  (exists c', ChatRoom.listener
                (room_joined (Some {| rj_messages := ms; rj_users := Present us |})) c
              = Done c' /\ onlineUsers c' = us) /\
  (exists c', ChatRoom.listener
                (user_joined (Some {| ud_users := Present us |})) c
              = Done c' /\ onlineUsers c' = us) /\
  (exists c', ChatRoom.listener
                (user_left (Some {| ud_users := Present us |})) c
              = Done c' /\ onlineUsers c' = us) /\
  (let a := {| user_username := js "a" |} in
   let b := {| user_username := js "b" |} in
   option_map onlineUsers
     (chat (deliver (user_left (Some {| ud_users := Present [a] |}))
              (deliver (user_joined (Some {| ud_users := Present [a; b] |})) in_R1)))
   = Some [a]).
Proof.
  repeat split; try (eexists; split; [reflexivity | reflexivity]).
Qed.

(** ** Local input *)

(** C8: a user name or a message that trims to the empty string (the
    empty string included) makes the submit a no-op: the client is left
    exactly as it was, so nothing is emitted and no state changes; the
    handlers are total, there is no error value. *)
Theorem blank_input_is_noop
  (s : jsstring) (w : World) (c : ChatRoomState) (H : trim s = []) :
  UsernameModal.handleSubmit App.handleSetUsername (set_modal_username s w)
    = set_modal_username s w /\
  perform SubmitUsername (set_modal_username s w) = set_modal_username s w /\
  ChatRoom.handleSendMessage (ChatRoom.setNewMessage s c) w = w /\
  perform SubmitMessage (set_chat (Some (ChatRoom.setNewMessage s c)) w)
    = set_chat (Some (ChatRoom.setNewMessage s c)) w.
Proof.
  assert (Hs : UsernameModal.handleSubmit App.handleSetUsername
                 (set_modal_username s w) = set_modal_username s w).
  { unfold UsernameModal.handleSubmit; simpl; rewrite H; reflexivity. }
  assert (Hm : forall w', ChatRoom.handleSendMessage (ChatRoom.setNewMessage s c) w' = w').
  { intros w'; unfold ChatRoom.handleSendMessage; simpl; rewrite H; reflexivity. }
  repeat split; auto.
  - unfold perform; simpl; destruct (appState w); auto.
  - unfold perform; simpl; destruct (appState w); auto.
Qed.

Lemma blank_input_is_noop_witness :
  trim (js "   ") = [] /\
  perform SubmitUsername (set_modal_username (js "   ") App.start)
    = set_modal_username (js "   ") App.start /\
  ChatRoom.handleSendMessage
    (ChatRoom.setNewMessage (js "   ") (ChatRoom.initial R1 (js "alice"))) in_R1
    = in_R1.
Proof.
  split; [reflexivity|].
  pose proof (blank_input_is_noop (js "   ") App.start
                (ChatRoom.initial R1 (js "alice")) eq_refl) as (_ & H1 & _ & _).
  pose proof (blank_input_is_noop (js "   ") in_R1
                (ChatRoom.initial R1 (js "alice")) eq_refl) as (_ & _ & H2 & _).
  split; [exact H1 | exact H2].
Defined.

(** C9: a message is shown as one's own exactly when its [username] is
    the same string as the local user name; for alice, a message of
    alice is her own and one of alice2 is not. *)
Theorem own_message_iff_same_username (c : ChatRoomState) (m : Message) :
  (ChatRoom.is_own c m = true <-> msg_username m = username c) /\
  (let alice := ChatRoom.initial R1 (js "alice") in
   let by_ u := {| msg_username := js u; msg_message := js "hi";
                   msg_timestamp := 0; msg_room_id := js "r1" |} in
   ChatRoom.is_own alice (by_ "alice"%string) = true /\
   ChatRoom.is_own alice (by_ "alice2"%string) = false).
Proof.
  split; [apply jsstring_eqb_eq | split; reflexivity].
Qed.

(** C10: submitting a name that does not trim to the empty string stores
    its trimmed form (the entered string less white space at both ends)
    as the user name; that string goes out in [join_room] when a room is
    selected, and it is the one messages are compared with.  Entering
    " alice " gives "alice". *)
Theorem identity_is_trimmed_input
  (w : World) (r : Room)
  (Hphase : appState w = phase_username)
  (Hsock : socket w = true)
  (Hname : trim (modal_username w) <> []) :
  let s := modal_username w in
  let w1 := perform SubmitUsername w in
  let w2 := perform (SelectRoom r) w1 in
  app_username w1 = trim s /\
  appState w1 = phase_rooms /\
  outbox w1 = outbox w /\
  outbox w2 = outbox w ++ [(clock w, join_room (trim s) (room_id r))] /\
  chat w2 = Some (ChatRoom.initial r (trim s)) /\
  (forall c m, chat w2 = Some c ->
               ChatRoom.is_own c m = jsstring_eqb (msg_username m) (trim s)) /\
  (exists pre post, s = pre ++ trim s ++ post /\
                    forallb is_white pre = true /\ forallb is_white post = true) /\
  trim (js " alice ") = js "alice".
Proof.
  intros s w1 w2.
  assert (E1 : w1 = App.handleSetUsername (trim s) w).
  { unfold w1, perform; rewrite Hphase.
    unfold UsernameModal.handleSubmit; fold s.
    destruct (trim s) eqn:E; [exfalso; apply Hname; exact E | reflexivity]. }
  assert (E2 : w2 = App.handleJoinRoom r w1).
  { unfold w2, perform; rewrite E1; reflexivity. }
  assert (E3 : chat w2 = Some (ChatRoom.initial r (trim s))).
  { rewrite E2, E1; unfold App.handleJoinRoom, ChatRoom.effect; simpl.
    rewrite Hsock; reflexivity. }
  repeat split.
  - rewrite E1; reflexivity.
  - rewrite E1; reflexivity.
  - rewrite E1; reflexivity.
  - rewrite E2, E1; unfold App.handleJoinRoom, ChatRoom.effect; simpl.
    rewrite Hsock; reflexivity.
  - exact E3.
  - intros c m Hc; rewrite E3 in Hc; inversion Hc; subst; reflexivity.
  - destruct (trim_spec s) as (pre & post & Hs & Hpre & Hpost & _).
    exists pre, post; auto.
Qed.

Lemma identity_is_trimmed_input_witness :
  let w := perform (EditUsername (js " alice ")) App.start in
  app_username (perform SubmitUsername w) = js "alice" /\
  outbox (perform (SelectRoom R1) (perform SubmitUsername w))
    = [(0, join_room (js "alice") (js "r1"))].
Proof.
  pose proof (identity_is_trimmed_input
                (perform (EditUsername (js " alice ")) App.start) R1
                eq_refl eq_refl ltac:(discriminate)) as (H1 & _ & _ & H2 & _).
  split; [exact H1 | exact H2].
Defined.

(** ** The typing timer *)

Lemma first_keystroke (c : ChatRoomState) (w : World) (t : N) (v : jsstring) :
  idle c w -> clock w <= t ->
  armed (room c) t (step w (t, Keystroke v)) /\
  outbox (step w (t, Keystroke v))
    = outbox w ++ [(t, typing (room_id (room c)) true)].
Proof.
  intros (Hp & Hc & Hs & Ht) Hle.
  destruct w as [so mu au cr ap ch cl nt tms ob]; simpl in *; subst.
  unfold step, perform, advance, ChatRoom.handleTyping; simpl.
  rewrite N.max_r by assumption.
  destruct (typingTimeoutRef c) as [id|]; simpl; rewrite app_nil_r;
    (split; [|reflexivity]);
    (repeat split; eexists _, _; repeat split; reflexivity).
Qed.

Lemma next_keystroke (r : Room) (w : World) (t t' : N) (v : jsstring) :
  armed r t w -> t <= t' -> t' < t + 1000 ->
  armed r t' (step w (t', Keystroke v)) /\
  outbox (step w (t', Keystroke v))
    = outbox w ++ [(t', typing (room_id r) true)].
Proof.
  intros (Hp & Hs & Hcl & c & id & Hc & Hr & Href & Ht) Hle Hlt.
  destruct w as [so mu au cr ap ch cl nt tms ob]; simpl in *; subst.
  assert (Hd : (t + 1000 <=? t') = false) by (apply N.leb_gt; assumption).
  unfold step, perform, advance, ChatRoom.handleTyping; simpl.
  unfold is_due; simpl; rewrite Hd; simpl.
  rewrite Href; simpl; rewrite Pos.eqb_refl; simpl.
  rewrite N.max_r, app_nil_r by assumption.
  split; [|reflexivity].
  repeat split; eexists _, _; repeat split; reflexivity.
Qed.

Lemma last_cons {A} (l : list A) (x d : A) : last (x :: l) d = last l x.
Proof.
  revert x d; induction l as [|z l IH]; intros x d; [reflexivity|].
  change (last (x :: z :: l) d) with (last (z :: l) d).
  rewrite !IH; reflexivity.
Qed.

Lemma last_time_cons (t : N) (k : N * jsstring) (ks : list (N * jsstring)) :
  last_time (fst k) ks = last_time t (k :: ks).
Proof.
  unfold last_time; simpl map; symmetry; apply last_cons.
Qed.

Lemma burst_of_keystrokes (r : Room) (ks : list (N * jsstring)) :
  forall (w : World) (t : N),
    armed r t w -> burst t ks = true ->
    armed r (last_time t ks) (run w (keystrokes ks)) /\
    outbox (run w (keystrokes ks))
      = outbox w ++ typing_starts (room_id r) ks.
Proof.
  induction ks as [|[t' v] ks IH]; intros w t Ha Hb.
  - simpl; rewrite app_nil_r; auto.
  - simpl in Hb. apply andb_true_iff in Hb as [Hb Hrest].
    apply andb_true_iff in Hb as [Hle Hlt].
    apply N.leb_le in Hle; apply N.ltb_lt in Hlt.
    destruct (next_keystroke r w t t' v Ha Hle Hlt) as [Ha' Ho'].
    destruct (IH _ _ Ha' Hrest) as [Ha'' Ho''].
    split.
    + replace (last_time t ((t', v) :: ks)) with (last_time (fst (t', v)) ks); [exact Ha''|].
      apply last_time_cons.
    + change (run w (keystrokes ((t', v) :: ks)))
        with (run (step w (t', Keystroke v)) (keystrokes ks)).
      rewrite Ho'', Ho', <- app_assoc; reflexivity.
Qed.

Lemma timer_expires (r : Room) (w : World) (t h : N) :
  armed r t w -> t + 1000 <= h ->
  outbox (advance h w) = outbox w ++ [(t + 1000, typing (room_id r) false)] /\
  timers (advance h w) = [].
Proof.
  intros (Hp & Hs & Hcl & c & id & Hc & Hr & Href & Ht) Hle.
  apply N.leb_le in Hle.
  unfold advance; simpl; rewrite Ht; simpl; unfold is_due; simpl.
  rewrite Hle; split; reflexivity.
Qed.

Lemma typing_count_app (b : bool) (l1 l2 : list (N * OutEvent)) :
  typing_count b (l1 ++ l2) = (typing_count b l1 + typing_count b l2)%nat.
Proof. unfold typing_count; rewrite filter_app, length_app; reflexivity. Qed.

Lemma typing_count_starts (rid : jsstring) (ks : list (N * jsstring)) :
  typing_count true (typing_starts rid ks) = List.length ks /\
  typing_count false (typing_starts rid ks) = 0%nat.
Proof.
  unfold typing_count, typing_starts; induction ks as [|k ks [IH1 IH2]];
    simpl; auto.
Qed.

(** C1 (as the code has it): from a quiet input, a burst of keystrokes
    (each less than 1000 ms after the one before) followed by silence
    writes to the socket one [typing(room, true)] per keystroke, at the
    time of that keystroke, and then exactly one [typing(room, false)],
    1000 ms after the last keystroke; nothing else. *)
Theorem typing_burst_events
  (c : ChatRoomState) (w : World) (k : N * jsstring)
  (ks : list (N * jsstring)) (h : N)
  (Hidle : idle c w)
  (Hnow : clock w <= fst k)
  (Hburst : burst (fst k) ks = true)
  (Hquiet : last_time (fst k) ks + 1000 <= h) :
  let rid := room_id (room c) in
  let w' := advance h (run w (keystrokes (k :: ks))) in
  outbox w' = outbox w ++ typing_starts rid (k :: ks)
                ++ [(last_time (fst k) ks + 1000, typing rid false)] /\
  typing_count true (outbox w')
    = (typing_count true (outbox w) + List.length (k :: ks))%nat /\
  typing_count false (outbox w') = (typing_count false (outbox w) + 1)%nat /\
  timers w' = [].
Proof.
  intros rid w'.
  destruct k as [t v]; simpl in Hnow, Hburst, Hquiet.
  destruct (first_keystroke c w t v Hidle Hnow) as [Ha Ho].
  destruct (burst_of_keystrokes _ ks _ _ Ha Hburst) as [Ha' Ho'].
  destruct (timer_expires _ _ _ h Ha' Hquiet) as [Ho'' Ht''].
  assert (E : outbox w' = outbox w ++ typing_starts rid ((t, v) :: ks)
                ++ [(last_time t ks + 1000, typing rid false)]).
  { unfold w'.
    change (run w (keystrokes ((t, v) :: ks)))
      with (run (step w (t, Keystroke v)) (keystrokes ks)).
    rewrite Ho'', Ho', Ho; simpl; rewrite <- !app_assoc; reflexivity. }
  split; [exact E|]. split; [|split; [|exact Ht'']].
  - rewrite E, !typing_count_app.
    destruct (typing_count_starts rid ((t, v) :: ks)) as [-> _].
    cbn [List.length]; unfold typing_count; simpl; lia.
  - rewrite E, !typing_count_app.
    destruct (typing_count_starts rid ((t, v) :: ks)) as [_ ->].
    cbn [List.length]; unfold typing_count; simpl; lia.
Qed.

Lemma typing_burst_events_witness :
  outbox (advance 1900
            (run in_R1 (keystrokes [(0, js "h"); (200, js "he");
                                    (400, js "hel"); (900, js "hell")])))
  = [(0, join_room (js "alice") (js "r1"));
     (0, typing (js "r1") true); (200, typing (js "r1") true);
     (400, typing (js "r1") true); (900, typing (js "r1") true);
     (1900, typing (js "r1") false)].
Proof.
  assert (Hidle : idle (ChatRoom.initial R1 (js "alice")) in_R1)
    by (repeat split; reflexivity).
  assert (Hnow : clock in_R1 <= fst (0, js "h")) by (apply N.leb_le; reflexivity).
  assert (Hquiet : last_time (fst (0, js "h"))
                     [(200, js "he"); (400, js "hel"); (900, js "hell")] + 1000
                   <= 1900) by (apply N.leb_le; reflexivity).
  exact (proj1 (typing_burst_events (ChatRoom.initial R1 (js "alice")) in_R1
                  (0, js "h")
                  [(200, js "he"); (400, js "hel"); (900, js "hell")] 1900
                  Hidle Hnow eq_refl Hquiet)).
Defined.

(** C1, counterexample: keystrokes at 0, 200, 400 and 900 ms put four
    [typing(room, true)] events on the socket, not one. *)
Lemma typing_start_sent_per_keystroke :
  typing_count true
    (outbox (advance 1900
               (run in_R1 (keystrokes [(0, js "h"); (200, js "he");
                                       (400, js "hel"); (900, js "hell")]))))
  = 4%nat /\
  typing_count false
    (outbox (advance 1900
               (run in_R1 (keystrokes [(0, js "h"); (200, js "he");
                                       (400, js "hel"); (900, js "hell")]))))
  = 1%nat.
Proof. split; reflexivity. Qed.

(** C2 (as the code has it): sending a message that does not trim to
    the empty string writes [send_message] and, at the same moment,
    [typing(room, false)], and empties the input.  The timer queue is
    left as it was: a typing timer pending then is still pending, and
    fires when its time comes. *)
Theorem send_emits_stop_and_keeps_timer
  (w : World) (c : ChatRoomState)
  (Hphase : appState w = phase_chat)
  (Hchat : chat w = Some c)
  (Hsock : socket w = true)
  (Hmsg : trim (newMessage c) <> []) :
  let rid := room_id (room c) in
  let w' := perform SubmitMessage w in
  outbox w' = outbox w ++ [(clock w, send_message rid (trim (newMessage c)));
                           (clock w, typing rid false)] /\
  chat w' = Some (ChatRoom.setNewMessage [] c) /\
  timers w' = timers w /\
  (forall h, outbox (advance h w')
             = outbox w' ++ map fire (filter (is_due h) (timers w))).
Proof.
  intros rid w'.
  assert (E : w' = emit (typing rid false)
                     (set_chat (Some (ChatRoom.setNewMessage [] c))
                        (emit (send_message rid (trim (newMessage c))) w))).
  { unfold w', perform; rewrite Hphase, Hchat.
    unfold ChatRoom.handleSendMessage; rewrite Hsock.
    destruct (trim (newMessage c)) eqn:Et; [contradiction | reflexivity]. }
  rewrite E; simpl; rewrite <- app_assoc; repeat split.
Qed.

Lemma send_emits_stop_and_keeps_timer_witness :
  let w := run in_R1 [(0, Keystroke (js "hi"))] in
  timers (perform SubmitMessage w)
    = [{| tid := 1; due := 1000; timer_room := js "r1" |}] /\
  outbox (perform SubmitMessage w)
    = outbox w ++ [(0, send_message (js "r1") (js "hi"));
                   (0, typing (js "r1") false)].
Proof.
  pose proof (send_emits_stop_and_keeps_timer
                (run in_R1 [(0, Keystroke (js "hi"))])
                (ChatRoom.set_typingTimeoutRef (Some 1%positive)
                   (ChatRoom.setNewMessage (js "hi")
                      (ChatRoom.initial R1 (js "alice"))))
                eq_refl eq_refl eq_refl ltac:(discriminate))
    as (H1 & _ & H2 & _).
  split; [exact H2 | exact H1].
Defined.

(** C2, counterexample: "hi" typed at 0 ms and sent at 500 ms.  The
    timer set at 0 ms is still pending after the send, and at 1000 ms it
    writes a second [typing(room, false)]. *)
Lemma send_leaves_timer_pending :
  timers (run in_R1 [(0, Keystroke (js "hi")); (500, SubmitMessage)])
    = [{| tid := 1; due := 1000; timer_room := js "r1" |}] /\
  outbox (advance 2000
            (run in_R1 [(0, Keystroke (js "hi")); (500, SubmitMessage)]))
    = [(0, join_room (js "alice") (js "r1"));
       (0, typing (js "r1") true);
       (500, send_message (js "r1") (js "hi"));
       (500, typing (js "r1") false);
       (1000, typing (js "r1") false)].
Proof. split; reflexivity. Qed.

(** ** Listeners and rooms *)

(** C5 (as the code has it): while a [ChatRoom] is on screen, a
    [new_message] event is appended to its messages whatever room the
    message is tagged with; the listener compares no room id.  Once the
    room is left, and until another is joined, no listener is
    registered and every event is dropped. *)
Theorem new_message_appended_unguarded
  (w : World) (c : ChatRoomState) (m : Message) (e : InEvent) (t : N)
  (Hchat : chat w = Some c)
  (Hsock : socket w = true) :
  chat (step w (t, Receive (new_message m)))
    = Some (ChatRoom.setMessages (messages c ++ [m]) c) /\
  step (App.handleLeaveRoom w) (t, Receive e)
    = advance t (App.handleLeaveRoom w).
Proof.
  split.
  - unfold step, perform; simpl.
    assert (E : deliver (new_message m) (advance t w)
                = set_chat (Some (ChatRoom.setMessages (messages c ++ [m]) c))
                    (advance t w)).
    { unfold deliver; simpl; rewrite Hchat, Hsock; reflexivity. }
    destruct (appState w), (chat w); rewrite E; reflexivity.
  - unfold step, perform; simpl. reflexivity.
Qed.

Lemma new_message_appended_unguarded_witness :
  let m := {| msg_username := js "bob"; msg_message := js "hello";
              msg_timestamp := 5; msg_room_id := js "r2" |} in
  chat (step in_R1 (10, Receive (new_message m)))
    = Some (ChatRoom.setMessages [m] (ChatRoom.initial R1 (js "alice"))).
Proof.
  exact (proj1 (new_message_appended_unguarded in_R1
                  (ChatRoom.initial R1 (js "alice"))
                  {| msg_username := js "bob"; msg_message := js "hello";
                     msg_timestamp := 5; msg_room_id := js "r2" |}
                  (user_typing None) 10 eq_refl eq_refl)).
Defined.

(** C5, counterexample: alice joins r1, leaves, joins r2; a message
    tagged r1 arrives afterwards and is in the messages of r2. *)
Lemma stale_message_shown_in_next_room :
  let m := {| msg_username := js "bob"; msg_message := js "late";
              msg_timestamp := 5; msg_room_id := room_id R1 |} in
  let w := run in_R1 [(100, ClickLeave); (200, SelectRoom R2);
                      (300, Receive (new_message m))] in
  option_map room (chat w) = Some R2 /\
  option_map messages (chat w) = Some [m] /\
  msg_room_id m <> room_id R2.
Proof. repeat split; discriminate. Qed.

(** ** Timers over the life of a [ChatRoom] *)

Lemma listener_keeps_ref (e : InEvent) (c c' : ChatRoomState) :
  ChatRoom.listener e c = Done c' ->
  typingTimeoutRef c' = typingTimeoutRef c.
Proof.
  destruct e as [[d|]|m|[d|]|[d|]|[d|]]; simpl; try discriminate;
    try (intros H; inversion H; reflexivity).
  unfold ChatRoom.on_user_typing; destruct (td_is_typing d);
    intros H; inversion H; reflexivity.
Qed.

Lemma deliver_timers (e : InEvent) (w : World) :
  timers (deliver e w) = timers w /\ next_timer (deliver e w) = next_timer w /\
  appState (deliver e w) = appState w.
Proof.
  unfold deliver; destruct (chat w); [|auto].
  destruct (socket w); [|auto].
  destruct (ChatRoom.listener e c); auto.
Qed.

Lemma handleCreateRoom_frame (r : Room) (w : World) :
  timers (App.handleCreateRoom r w) = timers w /\
  next_timer (App.handleCreateRoom r w) = next_timer w /\
  clock (App.handleCreateRoom r w) = clock w /\
  socket (App.handleCreateRoom r w) = socket w /\
  app_username (App.handleCreateRoom r w) = app_username w /\
  appState (App.handleCreateRoom r w) = phase_chat /\
  currentRoom (App.handleCreateRoom r w) = Some r /\
  chat (App.handleCreateRoom r w)
  = Some (match chat w with
          | Some c => ChatRoom.set_room r c
          | None => ChatRoom.initial r (app_username w)
          end) /\
  outbox (App.handleCreateRoom r w)
  = outbox w ++
    (if socket w
     then [(clock w,
            join_room (match chat w with
                       | Some c => username c
                       | None => app_username w
                       end) (room_id r))]
     else []).
Proof.
  unfold App.handleCreateRoom, App.handleJoinRoom, ChatRoom.effect.
  destruct (chat w) as [c|]; simpl; destruct (socket w) eqn:Es; simpl;
    rewrite ?app_nil_r; repeat split; auto.
Qed.

Lemma perform_created (r : Room) (w : World) :
  perform (RoomCreated r) w = w \/
  perform (RoomCreated r) w = App.handleCreateRoom r w.
Proof. unfold perform; destruct (appState w); auto. Qed.

Lemma handles_fresh_advance (t : N) (w : World) :
  handles_fresh w -> handles_fresh (advance t w).
Proof.
  unfold handles_fresh, advance; simpl; rewrite !Forall_forall.
  intros H tm Hin; apply filter_In in Hin; apply H; tauto.
Qed.

Lemma handles_fresh_perform (a : Action) (w : World) :
  handles_fresh w -> handles_fresh (perform a w).
Proof.
  intros H.
  assert (Hcr : forall r, handles_fresh (perform (RoomCreated r) w)).
  { intros r; destruct (perform_created r w) as [-> | ->]; [exact H|].
    unfold handles_fresh.
    destruct (handleCreateRoom_frame r w) as (-> & -> & _); exact H. }
  destruct a as [v| |r|value| | |e|r]; [| | | | | | |apply Hcr].
  all: unfold perform.
  all: destruct (appState w) eqn:Ep; try destruct (chat w) as [c|] eqn:Ec;
    try exact H;
    try (unfold handles_fresh; destruct (deliver_timers e w) as (-> & -> & _); exact H).
  - unfold UsernameModal.handleSubmit; destruct (truthy _); exact H.
  - unfold UsernameModal.handleSubmit; destruct (truthy _); exact H.
  - unfold App.handleJoinRoom, ChatRoom.effect; simpl; destruct (socket w); exact H.
  - unfold App.handleJoinRoom, ChatRoom.effect; simpl; destruct (socket w); exact H.
  - unfold ChatRoom.handleTyping; destruct (socket w); [|exact H].
    unfold handles_fresh in *; rewrite Forall_forall in *.
    assert (Hold : forall tm, In tm (timers w) ->
                   (tid tm < Pos.succ (next_timer w))%positive).
    { intros tm Hin; specialize (H tm Hin); lia. }
    destruct (typingTimeoutRef c) as [id|]; simpl; intros tm Hin;
      apply in_app_or in Hin as [Hin|[<-|[]]]; simpl; try lia;
      try (apply filter_In in Hin as [Hin _]); auto.
  - unfold ChatRoom.handleSendMessage.
    destruct (truthy _ && socket w); exact H.
  - unfold ChatRoom.handleLeaveRoom; destruct (socket w); exact H.
Qed.

Lemma handles_fresh_run (l : list (N * Action)) (w : World) :
  handles_fresh w -> handles_fresh (run w l).
Proof.
  revert w; induction l as [|ta l IH]; intros w H; [exact H|].
  apply IH, handles_fresh_perform, handles_fresh_advance, H.
Qed.

Lemma socket_perform (a : Action) (w : World) :
  socket (perform a w) = socket w.
Proof.
  destruct a as [v| |r|value| | |e|r].
  8: { destruct (perform_created r w) as [-> | ->]; [reflexivity|].
       apply (handleCreateRoom_frame r w). }
  7: { change (perform (Receive e) w) with (deliver e w). unfold deliver.
       destruct (chat w); [|reflexivity]. destruct (socket w) eqn:Es; auto.
       destruct (ChatRoom.listener e c); simpl; auto. }
  all: unfold perform; destruct (appState w); try destruct (chat w) as [c|];
    try reflexivity.
  - unfold UsernameModal.handleSubmit; destruct (truthy _); reflexivity.
  - unfold UsernameModal.handleSubmit; destruct (truthy _); reflexivity.
  - unfold App.handleJoinRoom, ChatRoom.effect; simpl; destruct (socket w) eqn:Es;
      simpl; auto.
  - unfold App.handleJoinRoom, ChatRoom.effect; simpl; destruct (socket w) eqn:Es;
      simpl; auto.
  - unfold ChatRoom.handleTyping; destruct (socket w) eqn:Es; [|simpl; auto].
    destruct (typingTimeoutRef c); simpl; auto.
  - unfold ChatRoom.handleSendMessage.
    destruct (truthy _ && socket w); reflexivity.
  - unfold ChatRoom.handleLeaveRoom; destruct (socket w) eqn:Es; simpl; auto.
Qed.

Lemma socket_step (w : World) (ta : N * Action) : socket (step w ta) = socket w.
Proof. unfold step; rewrite socket_perform; reflexivity. Qed.

Lemma socket_run (l : list (N * Action)) (w : World) :
  socket (run w l) = socket w.
Proof.
  revert w; induction l as [|ta l IH]; intros w; [reflexivity|].
  simpl; rewrite IH; apply socket_step.
Qed.

Lemma filter_swap {A} (f g : A -> bool) (l : list A) :
  filter f (filter g l) = filter g (filter f l).
Proof.
  induction l as [|a l IH]; simpl; auto.
  destruct (f a) eqn:Ef, (g a) eqn:Eg; simpl; rewrite ?Ef, ?Eg, IH; reflexivity.
Qed.

Lemma one_own_timer_advance (r : Room) (base : positive) (t : N) (w : World) :
  one_own_timer r base w -> one_own_timer r base (advance t w).
Proof.
  intros (Hp & Hb & c & Hc & Hr & H).
  split; [exact Hp|]. split; [exact Hb|].
  exists c; split; [exact Hc|]. split; [exact Hr|].
  unfold created_since in *; simpl; rewrite filter_swap.
  destruct H as [-> | (tm & -> & Href)]; [left; reflexivity|].
  simpl; destruct (negb (is_due t tm)); [right; exists tm; auto | left; auto].
Qed.

Lemma one_own_timer_perform (r : Room) (base : positive) (a : Action)
      (w : World) :
  is_leave a = false -> is_creation a = false ->
  one_own_timer r base w -> one_own_timer r base (perform a w).
Proof.
  intros Ha Hcr (Hp & Hb & c & Hc & Hr & H).
  assert (J : one_own_timer r base w).
  { split; [exact Hp|]. split; [exact Hb|]. exists c; auto. }
  unfold perform; rewrite Hp, Hc.
  destruct a; try exact J; try discriminate.
  - (* Keystroke *)
    unfold ChatRoom.handleTyping. destruct (socket w).
    + assert (Hnew : (base <=? next_timer w)%positive = true)
        by (apply Pos.leb_le; exact Hb).
      destruct (typingTimeoutRef c) as [id|] eqn:Href; simpl;
        (split; [exact Hp|]); (split; [simpl; lia|]);
        eexists; (split; [reflexivity|]); (split; [exact Hr|]); right;
        exists {| tid := next_timer w; due := clock w + 1000;
                  timer_room := room_id (room c) |};
        (split; [|split; [reflexivity | simpl; rewrite Hr; reflexivity]]);
        unfold created_since in *; simpl; rewrite filter_app; simpl;
        rewrite Hnew.
      * rewrite filter_swap.
        destruct H as [-> | (tm & -> & Htm & _)]; [reflexivity|].
        inversion Htm; subst; simpl; rewrite Pos.eqb_refl; reflexivity.
      * destruct H as [-> | (tm & _ & Htm & _)]; [reflexivity | discriminate].
    + split; [exact Hp|]. split; [exact Hb|].
      eexists; split; [reflexivity|]. split; [exact Hr | exact H].
  - (* SubmitMessage *)
    unfold ChatRoom.handleSendMessage.
    destruct (truthy _ && socket w); [|exact J].
    split; [exact Hp|]. split; [exact Hb|].
    eexists; split; [reflexivity|]. split; [exact Hr | exact H].
  - (* Receive *)
    unfold deliver; rewrite Hc. destruct (socket w); [|exact J].
    destruct (ChatRoom.listener e c) as [c'|] eqn:El; [|exact J].
    split; [exact Hp|]. split; [exact Hb|].
    exists c'; split; [reflexivity|].
    rewrite (listener_keeps_ref _ _ _ El).
    split; [|exact H].
    rewrite <- Hr. clear - El.
    destruct e as [[d|]|m|[d|]|[d|]|[d|]]; simpl in El; try discriminate;
      try (inversion El; reflexivity).
    unfold ChatRoom.on_user_typing in El; destruct (td_is_typing d);
      inversion El; reflexivity.
Qed.

Lemma one_own_timer_run (r : Room) (base : positive) (l : list (N * Action)) :
  forall w, stays l = true -> no_creation l = true ->
            one_own_timer r base w -> one_own_timer r base (run w l).
Proof.
  induction l as [|[t a] l IH]; intros w Hl Hn J; [exact J|].
  simpl in Hl; apply andb_true_iff in Hl as [Ha Hl].
  simpl in Hn; apply andb_true_iff in Hn as [Hna Hn].
  apply IH; [exact Hl | exact Hn |].
  apply one_own_timer_perform; [| |apply one_own_timer_advance, J].
  - apply negb_true_iff; exact Ha.
  - apply negb_true_iff; exact Hna.
Qed.

Lemma one_own_timer_at_mount (w : World) (r : Room) :
  appState w = phase_rooms -> handles_fresh w ->
  one_own_timer r (next_timer w) (perform (SelectRoom r) w).
Proof.
  intros Hp Hf. unfold perform; rewrite Hp.
  assert (E : created_since (next_timer w) w = []).
  { unfold created_since, handles_fresh in *.
    induction Hf as [|tm l Htm _ IH]; simpl; auto.
    replace (next_timer w <=? tid tm)%positive with false; auto.
    symmetry; apply Pos.leb_gt; exact Htm. }
  unfold App.handleJoinRoom, ChatRoom.effect; simpl.
  destruct (socket w); (split; [reflexivity|]); (split; [simpl; lia|]);
    eexists; (split; [reflexivity|]); (split; [reflexivity|]); left; exact E.
Qed.

Lemma leave_keeps_timers (w : World) :
  timers (perform ClickLeave w) = timers w.
Proof.
  unfold perform; destruct (appState w); try reflexivity.
  destruct (chat w) as [c|]; [|reflexivity].
  unfold ChatRoom.handleLeaveRoom; destruct (socket w); reflexivity.
Qed.

(** C3 (as the code has it): from the moment a room is selected until
    it is left (no room creation being answered meanwhile), of the
    timers set since then at most one is pending at any time, and its
    callback writes for that room.  Leaving writes [leave_room] and
    clears nothing: the timers pending at the leave are pending after
    it, and the one of this visit, when its time comes, writes
    [typing(room, false)] for the room just left, after the
    [leave_room]. *)
Theorem one_timer_per_room_visit
  (l1 l2 : list (N * Action)) (t : N) (r : Room)
  (Hrooms : appState (advance t (run App.start l1)) = phase_rooms)
  (Hstay : stays l2 = true)
  (Hsame : no_creation l2 = true) :
  let joined := step (run App.start l1) (t, SelectRoom r) in
  let w := run joined l2 in
  let left := perform ClickLeave w in
  (List.length (created_since (next_timer joined) w) <= 1)%nat /\
  (forall tm, In tm (created_since (next_timer joined) w) ->
              timer_room tm = room_id r) /\
  outbox left = outbox w ++ [(clock w, leave_room (room_id r))] /\
  timers left = timers w /\
  (forall tm h,
      In tm (created_since (next_timer joined) w) -> due tm <= h ->
      exists pre post,
        outbox (advance h left)
        = outbox left ++ pre ++ (due tm, typing (room_id r) false) :: post) /\
  (forall h, outbox (advance h left)
             = outbox left ++ map fire (filter (is_due h) (timers w))).
Proof.
  intros joined w left.
  assert (Hf : handles_fresh (advance t (run App.start l1))).
  { apply handles_fresh_advance, handles_fresh_run; constructor. }
  pose proof (one_own_timer_at_mount _ r Hrooms Hf) as J0.
  assert (Eb : next_timer joined = next_timer (advance t (run App.start l1))).
  { unfold joined, step, perform; cbn [fst snd]; rewrite Hrooms.
    unfold App.handleJoinRoom, ChatRoom.effect; simpl.
    destruct (socket _); reflexivity. }
  rewrite <- Eb in J0.
  destruct (one_own_timer_run r _ l2 joined Hstay Hsame J0)
    as (Hp & _ & c & Hc & Hr & Hown).
  fold w in Hp, Hc, Hown.
  assert (Hs : socket w = true).
  { unfold w, joined; rewrite socket_run, socket_step, socket_run;
      reflexivity. }
  assert (Hroom : forall tm, In tm (created_since (next_timer joined) w) ->
                             timer_room tm = room_id r).
  { intros tm Hin. destruct Hown as [E | (tm' & E & _ & Htm')];
      rewrite E in Hin; [destruct Hin|].
    destruct Hin as [<-|[]]; exact Htm'. }
  assert (Hall : forall h, outbox (advance h left)
                   = outbox left ++ map fire (filter (is_due h) (timers w))).
  { intros h; unfold left, advance; cbn [outbox].
    rewrite leave_keeps_timers; reflexivity. }
  split; [|split; [exact Hroom|split; [|split; [apply leave_keeps_timers|
    split; [|exact Hall]]]]].
  - destruct Hown as [E | (tm & E & _)]; rewrite E; simpl; lia.
  - unfold left, perform; rewrite Hp, Hc.
    unfold ChatRoom.handleLeaveRoom; rewrite Hs, Hr; reflexivity.
  - intros tm h Hin Hdue.
    assert (Hfire : In (fire tm) (map fire (filter (is_due h) (timers w)))).
    { apply in_map, filter_In; split.
      - unfold created_since in Hin; apply filter_In in Hin; tauto.
      - unfold is_due; apply N.leb_le; exact Hdue. }
    apply in_split in Hfire as (pre & post & E).
    exists pre, post. rewrite Hall, E.
    unfold fire; rewrite (Hroom tm Hin); reflexivity.
Qed.

Lemma one_timer_per_room_visit_witness :
  let joined := step (run App.start [(0, EditUsername (js " alice "));
                                     (0, SubmitUsername)])
                     (0, SelectRoom R1) in
  let w := run joined [(0, Keystroke (js "h")); (200, Keystroke (js "he"));
                       (300, Receive (user_typing None));
                       (400, SubmitMessage)] in
  (List.length (created_since (next_timer joined) w) <= 1)%nat /\
  timers (perform ClickLeave w) = timers w /\
  outbox (perform ClickLeave w)
    = outbox w ++ [(clock w, leave_room (room_id R1))].
Proof.
  pose proof (one_timer_per_room_visit
                [(0, EditUsername (js " alice ")); (0, SubmitUsername)]
                [(0, Keystroke (js "h")); (200, Keystroke (js "he"));
                 (300, Receive (user_typing None)); (400, SubmitMessage)]
                0 R1 eq_refl eq_refl eq_refl) as (H1 & _ & H3 & H2 & _).
  split; [exact H1 | split; [exact H2 | exact H3]].
Defined.

(** C3, counterexample: alice types in r1 at 0 ms and leaves at 500 ms.
    The timer is still pending after the leave, and at 1000 ms it writes
    [typing(r1, false)].  If she comes back to r1 and types again before
    that, two timers are pending for r1. *)
Lemma leave_does_not_cancel_timer :
  timers (run in_R1 [(0, Keystroke (js "h")); (500, ClickLeave)])
    = [{| tid := 1; due := 1000; timer_room := js "r1" |}] /\
  outbox (advance 2000 (run in_R1 [(0, Keystroke (js "h")); (500, ClickLeave)]))
    = [(0, join_room (js "alice") (js "r1"));
       (0, typing (js "r1") true);
       (500, leave_room (js "r1"));
       (1000, typing (js "r1") false)] /\
  timers (run in_R1 [(0, Keystroke (js "h")); (500, ClickLeave);
                     (600, SelectRoom R1); (700, Keystroke (js "x"))])
    = [{| tid := 1; due := 1000; timer_room := js "r1" |};
       {| tid := 2; due := 1700; timer_room := js "r1" |}].
Proof. repeat split. Qed.

(** * Further properties of the handlers *)

(** ** What an action can do to the mounted [ChatRoom] *)

Lemma deliver_chat_cases (e : InEvent) (w : World) :
  chat (deliver e w) = chat w \/
  exists c c', chat w = Some c /\ ChatRoom.listener e c = Done c' /\
               chat (deliver e w) = Some c'.
Proof.
  unfold deliver. destruct (chat w) as [c|] eqn:Ec; [|left; exact Ec].
  destruct (socket w); [|left; exact Ec].
  destruct (ChatRoom.listener e c) as [c'|] eqn:El; [|left; exact Ec].
  right; exists c, c'; auto.
Qed.

Lemma perform_chat_cases (a : Action) (w : World) :
  chat (perform a w) = chat w \/
  chat (perform a w) = None \/
  (exists r, chat (perform a w) = Some (ChatRoom.initial r (app_username w))) \/
  (exists c v, chat w = Some c /\
               chat (perform a w) = Some (ChatRoom.setNewMessage v c)) \/
  (exists c v id, chat w = Some c /\
                  chat (perform a w)
                  = Some (ChatRoom.set_typingTimeoutRef (Some id)
                            (ChatRoom.setNewMessage v c))) \/
  (exists e c c', chat w = Some c /\ ChatRoom.listener e c = Done c' /\
                  chat (perform a w) = Some c') \/
  (exists c r, chat w = Some c /\
               chat (perform a w) = Some (ChatRoom.set_room r c)).
Proof.
  destruct a as [v| |r|value| | |e|r].
  8: { destruct (perform_created r w) as [-> | ->]; [left; reflexivity|].
       destruct (handleCreateRoom_frame r w) as (_ & _ & _ & _ & _ & _ & _ & -> & _).
       destruct (chat w) as [c|] eqn:Ec.
       - do 6 right; exists c, r; auto.
       - right; right; left; exists r; reflexivity. }
  7: { change (perform (Receive e) w) with (deliver e w).
       destruct (deliver_chat_cases e w) as [E|(c & c' & E)];
         [left; exact E | do 5 right; left; exists e, c, c'; exact E]. }
  all: unfold perform; destruct (appState w);
    try destruct (chat w) as [c|] eqn:Ec;
    try (left; reflexivity); try (left; simpl; assumption).
  all: try (unfold UsernameModal.handleSubmit;
            destruct (truthy _); left; simpl; auto; fail).
  all: try (right; right; left; exists r;
            unfold App.handleJoinRoom, ChatRoom.effect; simpl;
            destruct (socket w); reflexivity).
  - unfold ChatRoom.handleTyping. destruct (socket w).
    + do 4 right; left.
      destruct (typingTimeoutRef c); eexists c, value, _; split; reflexivity.
    + do 3 right; left. exists c, value; split; reflexivity.
  - unfold ChatRoom.handleSendMessage.
    destruct (truthy _ && socket w); [|left; exact Ec].
    do 3 right; left. exists c, []; split; reflexivity.
  - right; left. unfold ChatRoom.handleLeaveRoom.
    destruct (socket w); reflexivity.
Qed.

Section ChatInvariant.

Variable P : ChatRoomState -> Prop.
Hypothesis P_initial : forall r u, P (ChatRoom.initial r u).
Hypothesis P_input : forall v c, P c -> P (ChatRoom.setNewMessage v c).
Hypothesis P_ref : forall v c, P c -> P (ChatRoom.set_typingTimeoutRef v c).
Hypothesis P_listener :
  forall e c c', ChatRoom.listener e c = Done c' -> P c -> P c'.
Hypothesis P_room : forall r c, P c -> P (ChatRoom.set_room r c).

Lemma chat_invariant_step (w : World) (ta : N * Action) :
  (forall c, chat w = Some c -> P c) ->
  forall c, chat (step w ta) = Some c -> P c.
Proof.
  intros H c. unfold step.
  assert (H' : forall c0, chat (advance (fst ta) w) = Some c0 -> P c0)
    by exact H.
  destruct (perform_chat_cases (snd ta) (advance (fst ta) w))
    as [E|[E|[(r & E)|[(c0 & v & E0 & E)|[(c0 & v & id & E0 & E)
         |[(e & c0 & c' & E0 & El & E)|(c0 & r & E0 & E)]]]]]];
    rewrite E; intros Hc; try discriminate; try (inversion Hc; subst); auto.
  eapply P_listener; eauto.
Qed.

Lemma chat_invariant_run (l : list (N * Action)) :
  forall w, (forall c, chat w = Some c -> P c) ->
            forall c, chat (run w l) = Some c -> P c.
Proof.
  induction l as [|ta l IH]; intros w H; [exact H|].
  apply IH; apply chat_invariant_step; exact H.
Qed.

End ChatInvariant.

(** ** The typing list, continued *)

(** X1: a [user_typing] event with [is_typing] false takes the name out
    of the typing list and leaves the other names in their order; a
    second one changes nothing; coming after a start signal of the same
    user it undoes it. *)
Theorem user_typing_false_removes (c : ChatRoomState) (name : jsstring) :
  let start := user_typing (Some {| td_username := name; td_is_typing := true |}) in
  let stop := user_typing (Some {| td_username := name; td_is_typing := false |}) in
  let c1 := ChatRoom.setTypingUsers (ChatRoom.without name (typingUsers c)) c in
  ChatRoom.listener stop c = Done c1 /\
  ChatRoom.listener stop c1 = Done c1 /\
  ~ In name (typingUsers c1) /\
  (forall u, u <> name -> count_occ (list_eq_dec N.eq_dec) (typingUsers c1) u
                          = count_occ (list_eq_dec N.eq_dec) (typingUsers c) u) /\
  (forall c2, ChatRoom.listener start c = Done c2 ->
              ChatRoom.listener stop c2 = Done c1).
Proof.
  simpl; repeat split.
  - unfold ChatRoom.on_user_typing; simpl; rewrite without_idem; reflexivity.
  - apply without_not_in.
  - intros u Hu. unfold ChatRoom.without.
    induction (typingUsers c) as [|x l IH]; simpl; auto.
    destruct (jsstring_eqb x name) eqn:E; simpl.
    + apply jsstring_eqb_eq in E; subst x.
      destruct (list_eq_dec N.eq_dec name u); [congruence | exact IH].
    + destruct (list_eq_dec N.eq_dec x u); rewrite IH; reflexivity.
  - unfold ChatRoom.on_user_typing; simpl. intros c2 H; inversion H; subst; simpl.
    rewrite without_self, without_idem; reflexivity.
Qed.

Lemma listener_keeps_nodup (e : InEvent) (c c' : ChatRoomState) :
  ChatRoom.listener e c = Done c' ->
  NoDup (typingUsers c) -> NoDup (typingUsers c').
Proof.
  destruct e as [[d|]|m|[d|]|[d|]|[d|]]; simpl; try discriminate;
    try (intros H; inversion H; auto; fail).
  unfold ChatRoom.on_user_typing; destruct (td_is_typing d);
    intros H Hn; inversion H; subst; simpl.
  - apply NoDup_app.
    + apply NoDup_filter, Hn.
    + repeat constructor; intros [].
    + intros a Ha [<-|[]]. exact (without_not_in _ _ Ha).
  - apply NoDup_filter, Hn.
Qed.

(** X2: whatever the user does and the server sends, the typing list of
    the room on screen never holds a name twice. *)
Theorem typing_list_has_no_duplicates
  (l : list (N * Action)) (c : ChatRoomState)
  (Hchat : chat (run App.start l) = Some c) :
  NoDup (typingUsers c).
Proof.
  revert c Hchat.
  apply (chat_invariant_run (fun c => NoDup (typingUsers c))); auto.
  - intros; constructor.
  - exact listener_keeps_nodup.
  - discriminate.
Qed.

Lemma typing_list_has_no_duplicates_witness :
  NoDup [js "bob"; js "carol"].
Proof.
  exact (typing_list_has_no_duplicates
    [(0, EditUsername (js "alice")); (0, SubmitUsername); (0, SelectRoom R1);
     (5, Receive (user_typing (Some {| td_username := js "carol"; td_is_typing := true |})));
     (6, Receive (user_typing (Some {| td_username := js "bob"; td_is_typing := true |})));
     (7, Receive (user_typing (Some {| td_username := js "carol"; td_is_typing := true |})))]
    (ChatRoom.setTypingUsers [js "bob"; js "carol"]
       (ChatRoom.initial R1 (js "alice")))
    eq_refl).
Defined.

(** ** The socket and the message list *)

Lemma step_receive_done (w : World) (t : N) (e : InEvent)
      (c c' : ChatRoomState) :
  chat w = Some c -> socket w = true -> ChatRoom.listener e c = Done c' ->
  step w (t, Receive e) = set_chat (Some c') (advance t w).
Proof.
  intros Hc Hs He. unfold step.
  change (perform (snd (t, Receive e)) (advance (fst (t, Receive e)) w))
    with (deliver e (advance t w)).
  unfold deliver.
  change (chat (advance t w)) with (chat w).
  change (socket (advance t w)) with (socket w).
  rewrite Hc, Hs, He; reflexivity.
Qed.

(** ** Payloads with a missing property *)

(** C7 (as the code has it): when a [room_joined], [user_joined] or
    [user_left] event reaches a room on screen with a payload object
    that lacks [users] (or, for [room_joined], [messages]), the
    listener returns, the list it sets in the room is empty, and
    nothing else in the client changes. *)
Theorem missing_field_defaults_to_empty
  (w : World) (c : ChatRoomState) (t : N)
  (ms : field (list Message)) (us : field (list User))
  (Hchat : chat w = Some c)
  (Hsock : socket w = true) :
  step w (t, Receive (room_joined
                        (Some {| rj_messages := ms; rj_users := Absent |})))
    = set_chat (Some (ChatRoom.setOnlineUsers []
                        (ChatRoom.setMessages (or_empty ms) c)))
        (advance t w) /\
  step w (t, Receive (room_joined
                        (Some {| rj_messages := Absent; rj_users := us |})))
    = set_chat (Some (ChatRoom.setOnlineUsers (or_empty us)
                        (ChatRoom.setMessages [] c)))
        (advance t w) /\
  step w (t, Receive (user_joined (Some {| ud_users := Absent |})))
    = set_chat (Some (ChatRoom.setOnlineUsers [] c)) (advance t w) /\
  step w (t, Receive (user_left (Some {| ud_users := Absent |})))
    = set_chat (Some (ChatRoom.setOnlineUsers [] c)) (advance t w) /\
  (forall e, In e [room_joined (Some {| rj_messages := ms; rj_users := Absent |});
                   room_joined (Some {| rj_messages := Absent; rj_users := us |});
                   user_joined (Some {| ud_users := Absent |});
                   user_left (Some {| ud_users := Absent |})] ->
             ChatRoom.listener e c <> TypeError).
Proof.
  repeat split;
    try (apply (step_receive_done w t _ c _ Hchat Hsock); reflexivity).
  intros e [<-|[<-|[<-|[<-|[]]]]]; discriminate.
Qed.

Lemma missing_field_defaults_to_empty_witness :
  let a := {| user_username := js "a" |} in
  let w := step in_R1 (1, Receive (user_joined
                                     (Some {| ud_users := Present [a] |}))) in
  option_map onlineUsers
    (chat (step w (2, Receive (user_left (Some {| ud_users := Absent |})))))
  = Some [].
Proof.
  pose proof (missing_field_defaults_to_empty
    (step in_R1 (1, Receive (user_joined
       (Some {| ud_users := Present [{| user_username := js "a" |}] |}))))
    (ChatRoom.setOnlineUsers [{| user_username := js "a" |}]
       (ChatRoom.initial R1 (js "alice")))
    2 Absent Absent eq_refl eq_refl) as (_ & _ & _ & H & _).
  exact (f_equal (fun x => option_map onlineUsers (chat x)) H).
Defined.

(** C7, counterexample: a [user_left] event with no payload at all has
    no [users] either; its listener throws, and the online list, far
    from being emptied, stays as it was. *)
Lemma payloadless_event_is_not_defaulted :
  ChatRoom.listener (user_left None) (ChatRoom.initial R1 (js "alice"))
    = TypeError /\
  option_map onlineUsers
    (chat (run in_R1
             [(1, Receive (user_joined
                             (Some {| ud_users :=
                                        Present [{| user_username := js "a" |}] |})));
              (2, Receive (user_left None))]))
    = Some [{| user_username := js "a" |}].
Proof. split; reflexivity. Qed.

Lemma deliveries_append (ms : list (N * Message)) :
  forall (w : World) (c : ChatRoomState),
    chat w = Some c -> socket w = true ->
    exists c', chat (run w (deliveries ms)) = Some c' /\
               messages c' = messages c ++ map snd ms.
Proof.
  induction ms as [|[t m] ms IH]; intros w c Hc Hs.
  - exists c; simpl; rewrite app_nil_r; auto.
  - assert (E : chat (step w (t, Receive (new_message m)))
                = Some (ChatRoom.setMessages (messages c ++ [m]) c)).
    { rewrite (step_receive_done w t (new_message m) c
                 (ChatRoom.setMessages (messages c ++ [m]) c) Hc Hs eq_refl);
        reflexivity. }
    destruct (IH _ _ E) as (c' & Hc' & Hm);
      [rewrite socket_step; exact Hs|].
    exists c'; split; [exact Hc'|].
    rewrite Hm; simpl; rewrite <- app_assoc; reflexivity.
Qed.

(** X3: the message list of a room is the history of the last
    [room_joined] followed by the [new_message] events received since,
    in the order they came and with repeats kept; what was listed
    before that [room_joined] is gone. *)
Theorem message_list_is_history_then_arrivals
  (w : World) (c : ChatRoomState) (history : list Message)
  (us : field (list User)) (t : N) (ms : list (N * Message))
  (Hchat : chat w = Some c)
  (Hsock : socket w = true) :
  option_map messages
    (chat (run w ((t, Receive (room_joined
                       (Some {| rj_messages := Present history;
                                rj_users := us |})))
                  :: deliveries ms)))
  = Some (history ++ map snd ms).
Proof.
  set (c0 := ChatRoom.setOnlineUsers (or_empty us)
               (ChatRoom.setMessages history c)).
  assert (E : chat (step w (t, Receive (room_joined
                       (Some {| rj_messages := Present history;
                                rj_users := us |})))) = Some c0).
  { rewrite (step_receive_done w t
                 (room_joined (Some {| rj_messages := Present history;
                                       rj_users := us |}))
                 c c0 Hchat Hsock eq_refl); reflexivity. }
  destruct (deliveries_append ms _ _ E) as (c' & Hc' & Hm);
    [rewrite socket_step; exact Hsock|].
  simpl run. rewrite Hc'; simpl; rewrite Hm; reflexivity.
Qed.

Lemma message_list_is_history_then_arrivals_witness :
  let m u := {| msg_username := js u; msg_message := js "hi";
                msg_timestamp := 1; msg_room_id := js "r1" |} in
  option_map messages
    (chat (run (step in_R1 (1, Receive (new_message (m "zed"%string))))
             ((2, Receive (room_joined
                     (Some {| rj_messages := Present [m "bob"%string];
                              rj_users := Absent |})))
              :: deliveries [(3, m "carol"%string); (4, m "carol"%string)])))
  = Some [m "bob"%string; m "carol"%string; m "carol"%string].
Proof.
  exact (message_list_is_history_then_arrivals
           (step in_R1 (1, Receive (new_message
              {| msg_username := js "zed"; msg_message := js "hi";
                 msg_timestamp := 1; msg_room_id := js "r1" |})))
           _ _ Absent 2 _ eq_refl eq_refl).
Defined.

(** X4: a [room_joined], [user_joined], [user_left] or [user_typing]
    event that comes without a payload makes its listener throw; the
    client is left as it was (only time has passed). *)
Theorem event_without_payload_changes_nothing
  (e : InEvent) (w : World) (t : N)
  (Hnone : no_payload e = true) :
  (forall c, ChatRoom.listener e c = TypeError) /\
  deliver e w = w /\
  step w (t, Receive e) = advance t w.
Proof.
  assert (Hl : forall c, ChatRoom.listener e c = TypeError).
  { destruct e as [[d|]|m|[d|]|[d|]|[d|]]; try discriminate; reflexivity. }
  assert (Hd : forall w', deliver e w' = w').
  { intros w'; unfold deliver. destruct (chat w'); [|reflexivity].
    rewrite Hl; destruct (socket w'); reflexivity. }
  repeat split; auto. apply Hd.
Qed.

Lemma event_without_payload_changes_nothing_witness :
  step in_R1 (7, Receive (user_left None)) = advance 7 in_R1.
Proof.
  exact (proj2 (proj2 (event_without_payload_changes_nothing
                         (user_left None) in_R1 7 eq_refl))).
Defined.

(** ** Leaving, joining, submitting *)

(** X5: leaving a room and selecting a room (the same or another) gives
    a [ChatRoom] as new: no messages, no online users, nobody typing,
    an empty input, no timer handle.  In between there is no room and
    no [ChatRoom]. *)
Theorem room_switch_starts_afresh
  (w : World) (c : ChatRoomState) (r : Room) (t1 t2 : N)
  (Hphase : appState w = phase_chat)
  (Hchat : chat w = Some c) :
  let left := step w (t1, ClickLeave) in
  let joined := step left (t2, SelectRoom r) in
  appState left = phase_rooms /\ currentRoom left = None /\ chat left = None /\
  appState joined = phase_chat /\ currentRoom joined = Some r /\
  chat joined = Some (ChatRoom.initial r (app_username w)).
Proof.
  intros left joined.
  assert (El : left = App.handleLeaveRoom
                        (if socket w
                         then emit (leave_room (room_id (room c))) (advance t1 w)
                         else advance t1 w)).
  { unfold left, step, perform; cbn [fst snd].
    change (appState (advance t1 w)) with (appState w).
    change (chat (advance t1 w)) with (chat w).
    rewrite Hphase, Hchat; reflexivity. }
  assert (Ej : joined = App.handleJoinRoom r (advance t2 left)).
  { unfold joined, step, perform; cbn [fst snd].
    change (appState (advance t2 left)) with (appState left).
    rewrite El; reflexivity. }
  split; [rewrite El; reflexivity|].
  split; [rewrite El; reflexivity|].
  split; [rewrite El; reflexivity|].
  rewrite Ej, El; unfold App.handleJoinRoom, ChatRoom.effect; simpl.
  destruct (socket w) eqn:Es; simpl; rewrite ?Es; repeat split.
Qed.

Lemma room_switch_starts_afresh_witness :
  let w := run in_R1 [(1, Keystroke (js "hel"));
                      (2, Receive (new_message
                             {| msg_username := js "bob"; msg_message := js "yo";
                                msg_timestamp := 2; msg_room_id := js "r1" |}))] in
  chat (step (step w (3, ClickLeave)) (4, SelectRoom R2))
    = Some (ChatRoom.initial R2 (js "alice")).
Proof.
  pose proof (room_switch_starts_afresh
    (run in_R1 [(1, Keystroke (js "hel"));
                (2, Receive (new_message
                       {| msg_username := js "bob"; msg_message := js "yo";
                          msg_timestamp := 2; msg_room_id := js "r1" |}))])
    _ R2 3 4 eq_refl eq_refl) as (_ & _ & _ & _ & _ & H).
  exact H.
Defined.

(** X6: submitting the name, clicking a room, sending, and leaving act
    once: done a second time at once, each of them does nothing (the
    name form and the room list are no longer on screen, the input has
    been emptied, the room has been left). *)
Theorem repeated_action_does_nothing (w : World) (r : Room) :
  perform SubmitUsername (perform SubmitUsername w) = perform SubmitUsername w /\
  perform (SelectRoom r) (perform (SelectRoom r) w) = perform (SelectRoom r) w /\
  perform SubmitMessage (perform SubmitMessage w) = perform SubmitMessage w /\
  perform ClickLeave (perform ClickLeave w) = perform ClickLeave w.
Proof.
  repeat split.
  - unfold perform at 2 3; destruct (appState w) eqn:Ep;
      try (unfold perform; rewrite Ep; reflexivity).
    unfold UsernameModal.handleSubmit.
    destruct (truthy (trim (modal_username w))) eqn:Et.
    + reflexivity.
    + unfold perform; rewrite Ep; unfold UsernameModal.handleSubmit;
        rewrite Et; reflexivity.
  - unfold perform at 2 3; destruct (appState w) eqn:Ep;
      try (unfold perform; rewrite Ep; reflexivity).
    unfold App.handleJoinRoom, ChatRoom.effect; simpl.
    destruct (socket w); reflexivity.
  - unfold perform at 2 3; destruct (appState w) eqn:Ep;
      try (unfold perform; rewrite Ep; reflexivity).
    destruct (chat w) as [c|] eqn:Ec;
      [|unfold perform; rewrite Ep, Ec; reflexivity].
    unfold ChatRoom.handleSendMessage.
    destruct (truthy (trim (newMessage c)) && socket w) eqn:Eg.
    + unfold perform; simpl; rewrite Ep; reflexivity.
    + unfold perform; rewrite Ep, Ec; unfold ChatRoom.handleSendMessage;
        rewrite Eg; reflexivity.
  - unfold perform at 2 3; destruct (appState w) eqn:Ep;
      try (unfold perform; rewrite Ep; reflexivity).
    destruct (chat w) as [c|] eqn:Ec;
      [|unfold perform; rewrite Ep, Ec; reflexivity].
    unfold ChatRoom.handleLeaveRoom; destruct (socket w); reflexivity.
Qed.

(** ** Typing with pauses *)

Lemma late_keystroke (r : Room) (w : World) (t t' : N) (v : jsstring) :
  armed r t w -> t + 1000 < t' ->
  armed r t' (step w (t', Keystroke v)) /\
  outbox (step w (t', Keystroke v))
    = outbox w ++ [(t + 1000, typing (room_id r) false);
                   (t', typing (room_id r) true)].
Proof.
  intros (Hp & Hs & Hcl & c & id & Hc & Hr & Href & Ht) Hlt.
  destruct w as [so mu au cr ap ch cl nt tms ob]; simpl in *; subst.
  assert (Hd : (t + 1000 <=? t') = true) by (apply N.leb_le; lia).
  unfold step, perform, advance, ChatRoom.handleTyping; simpl.
  unfold is_due; simpl; rewrite Hd; simpl.
  rewrite Href; simpl.
  rewrite N.max_r by lia.
  split; [|rewrite <- app_assoc; reflexivity].
  repeat split; eexists _, _; repeat split; reflexivity.
Qed.

Lemma trace_of_keystrokes (r : Room) (h : N) (ks : list (N * jsstring)) :
  forall (w : World) (t : N),
    armed r t w -> untied t ks = true -> last_time t ks + 1000 <= h ->
    outbox (advance h (run w (keystrokes ks)))
      = outbox w ++ typing_trace (room_id r) t ks.
Proof.
  induction ks as [|[t' v] ks IH]; intros w t Ha Hu Hh.
  - exact (proj1 (timer_expires r w t h Ha Hh)).
  - simpl in Hu. apply andb_true_iff in Hu as [Hu Hrest].
    apply andb_true_iff in Hu as [Hle Hne].
    apply N.leb_le in Hle. apply negb_true_iff, N.eqb_neq in Hne.
    rewrite <- (last_time_cons t (t', v) ks) in Hh.
    change (run w (keystrokes ((t', v) :: ks)))
      with (run (step w (t', Keystroke v)) (keystrokes ks)).
    cbn [typing_trace fst].
    destruct (t + 1000 <? t') eqn:Elate.
    + apply N.ltb_lt in Elate.
      destruct (late_keystroke r w t t' v Ha Elate) as [Ha' Ho'].
      rewrite (IH _ _ Ha' Hrest Hh), Ho', <- app_assoc; reflexivity.
    + apply N.ltb_ge in Elate.
      assert (Hlt : t' < t + 1000) by lia.
      destruct (next_keystroke r w t t' v Ha Hle Hlt) as [Ha' Ho'].
      rewrite (IH _ _ Ha' Hrest Hh), Ho', <- app_assoc; reflexivity.
Qed.

(** X7: keystrokes at any times that do not go back (and do not fall on
    the millisecond a timer is due), from a quiet input and followed by
    silence: a [typing(room, true)] goes out at every keystroke, and a
    [typing(room, false)] goes out 1000 ms after every keystroke that
    is the last or is followed by the next one more than 1000 ms later;
    nothing else goes out. *)
Theorem typing_events_with_pauses
  (c : ChatRoomState) (w : World) (k : N * jsstring)
  (ks : list (N * jsstring)) (h : N)
  (Hidle : idle c w)
  (Hnow : clock w <= fst k)
  (Huntied : untied (fst k) ks = true)
  (Hquiet : last_time (fst k) ks + 1000 <= h) :
  outbox (advance h (run w (keystrokes (k :: ks))))
  = outbox w ++ (fst k, typing (room_id (room c)) true)
               :: typing_trace (room_id (room c)) (fst k) ks.
Proof.
  destruct k as [t v]; simpl in Hnow, Huntied, Hquiet.
  destruct (first_keystroke c w t v Hidle Hnow) as [Ha Ho].
  change (run w (keystrokes ((t, v) :: ks)))
    with (run (step w (t, Keystroke v)) (keystrokes ks)).
  rewrite (trace_of_keystrokes _ h ks _ _ Ha Huntied Hquiet), Ho,
    <- app_assoc; reflexivity.
Qed.

Lemma typing_events_with_pauses_witness :
  outbox (advance 9000
            (run in_R1 (keystrokes [(0, js "h"); (300, js "he");
                                    (2000, js "hel"); (2500, js "hell");
                                    (6000, js "hello")])))
  = [(0, join_room (js "alice") (js "r1"));
     (0, typing (js "r1") true); (300, typing (js "r1") true);
     (1300, typing (js "r1") false);
     (2000, typing (js "r1") true); (2500, typing (js "r1") true);
     (3500, typing (js "r1") false);
     (6000, typing (js "r1") true); (7000, typing (js "r1") false)].
Proof.
  assert (Hidle : idle (ChatRoom.initial R1 (js "alice")) in_R1)
    by (repeat split; reflexivity).
  assert (Hnow : clock in_R1 <= fst (0, js "h")) by (apply N.leb_le; reflexivity).
  assert (Hquiet : last_time (fst (0, js "h"))
                     [(300, js "he"); (2000, js "hel"); (2500, js "hell");
                      (6000, js "hello")] + 1000 <= 9000)
    by (apply N.leb_le; reflexivity).
  exact (typing_events_with_pauses (ChatRoom.initial R1 (js "alice")) in_R1
           (0, js "h")
           [(300, js "he"); (2000, js "hel"); (2500, js "hell");
            (6000, js "hello")] 9000 Hidle Hnow eq_refl Hquiet).
Defined.

(** ** Without a socket *)

Lemma perform_without_socket (a : Action) (w : World) :
  socket w = false ->
  outbox (perform a w) = outbox w /\ timers (perform a w) = timers w.
Proof.
  intros Hs. destruct a as [v| |r|value| | |e|r].
  8: { destruct (perform_created r w) as [-> | ->]; [auto|].
       destruct (handleCreateRoom_frame r w)
         as (-> & _ & _ & _ & _ & _ & _ & _ & ->).
       rewrite Hs, app_nil_r; auto. }
  7: { change (perform (Receive e) w) with (deliver e w). unfold deliver.
       destruct (chat w); [|auto]. rewrite Hs; auto. }
  all: unfold perform; destruct (appState w); try destruct (chat w) as [c|];
    auto.
  - unfold UsernameModal.handleSubmit; destruct (truthy _); auto.
  - unfold UsernameModal.handleSubmit; destruct (truthy _); auto.
  - unfold App.handleJoinRoom, ChatRoom.effect; simpl; rewrite Hs; auto.
  - unfold App.handleJoinRoom, ChatRoom.effect; simpl; rewrite Hs; auto.
  - unfold ChatRoom.handleTyping; rewrite Hs; auto.
  - unfold ChatRoom.handleSendMessage; rewrite Hs, andb_false_r; auto.
  - unfold ChatRoom.handleLeaveRoom; rewrite Hs; auto.
Qed.

(** X8: as long as there is no socket, nothing is written and no timer
    is set, whatever the user does: typing, sending and leaving only
    change what is on screen. *)
Theorem without_socket_nothing_goes_out
  (w : World) (l : list (N * Action))
  (Hsock : socket w = false)
  (Htimers : timers w = []) :
  outbox (run w l) = outbox w /\ timers (run w l) = [].
Proof.
  revert w Hsock Htimers; induction l as [|ta l IH]; intros w Hs Ht; [auto|].
  assert (Ha : outbox (advance (fst ta) w) = outbox w /\
               timers (advance (fst ta) w) = []).
  { unfold advance; simpl; rewrite Ht; simpl; rewrite app_nil_r; auto. }
  destruct (perform_without_socket (snd ta) (advance (fst ta) w) Hs) as [Ho Hti].
  destruct Ha as [Ha1 Ha2].
  destruct (IH (step w ta)) as [IH1 IH2].
  - rewrite socket_step; exact Hs.
  - unfold step; rewrite Hti; exact Ha2.
  - simpl run; rewrite IH1, IH2; unfold step; rewrite Ho, Ha1; auto.
Qed.

Lemma without_socket_nothing_goes_out_witness :
  outbox (run first_render
            [(0, EditUsername (js "alice")); (1, SubmitUsername);
             (2, SelectRoom R1); (3, Keystroke (js "hi"));
             (4, SubmitMessage); (5, ClickLeave)]) = [].
Proof.
  exact (proj1 (without_socket_nothing_goes_out first_render
                  [(0, EditUsername (js "alice")); (1, SubmitUsername);
                   (2, SelectRoom R1); (3, Keystroke (js "hi"));
                   (4, SubmitMessage); (5, ClickLeave)] eq_refl eq_refl)).
Defined.

(** ** The session as a whole *)

Lemma trimStart_fixed (m : jsstring) :
  (forall c rest, m = c :: rest -> is_white c = false) -> trimStart m = m.
Proof.
  destruct m as [|c rest]; intros H; [reflexivity|].
  simpl; rewrite (H c rest eq_refl); reflexivity.
Qed.

Lemma trim_trim (s : jsstring) : trim (trim s) = trim s.
Proof.
  destruct (trim_spec s) as (_ & _ & _ & _ & _ & Hhd & Hlast).
  unfold trim at 1, trimEnd.
  rewrite (trimStart_fixed (trim s) Hhd).
  rewrite trimStart_fixed; [apply rev_involutive|].
  intros c rest E. apply (Hlast c (rev rest)).
  rewrite <- (rev_involutive (trim s)), E; reflexivity.
Qed.

Lemma listener_keeps_props (e : InEvent) (c c' : ChatRoomState) :
  ChatRoom.listener e c = Done c' ->
  room c' = room c /\ username c' = username c /\
  newMessage c' = newMessage c.
Proof.
  destruct e as [[d|]|m|[d|]|[d|]|[d|]]; simpl; try discriminate;
    try (intros H; inversion H; auto; fail).
  unfold ChatRoom.on_user_typing; destruct (td_is_typing d);
    intros H; inversion H; auto.
Qed.

Lemma deliver_frame (e : InEvent) (w : World) :
  deliver e w = w \/
  exists c c', chat w = Some c /\ ChatRoom.listener e c = Done c' /\
               deliver e w = set_chat (Some c') w.
Proof.
  unfold deliver. destruct (chat w) as [c|] eqn:Ec; [|auto].
  destruct (socket w); [|auto].
  destruct (ChatRoom.listener e c) as [c'|] eqn:El; [|auto].
  right; exists c, c'; auto.
Qed.

Lemma consistent_perform (a : Action) (w : World) :
  consistent w -> consistent (perform a w).
Proof.
  intros H. destruct a as [v| |r|value| | |e|r].
  8: { unfold perform; destruct (appState w) eqn:Ep; [exact H| |];
         unfold consistent in H; rewrite Ep in H.
       - destruct H as [_ Hn].
         unfold consistent, App.handleCreateRoom; rewrite Hn.
         unfold App.handleJoinRoom, ChatRoom.effect; simpl.
         destruct (socket w); simpl; eexists _, _; repeat split.
       - destruct H as (r0 & c & _ & Hc & _ & Hu).
         unfold consistent, App.handleCreateRoom; rewrite Hc.
         unfold ChatRoom.effect; simpl.
         destruct (socket w); simpl; exists r, (ChatRoom.set_room r c);
           repeat split; exact Hu. }
  7: { change (perform (Receive e) w) with (deliver e w).
       destruct (deliver_frame e w) as [-> | (c & c' & Hc & Hl & ->)]; auto.
       destruct (listener_keeps_props e c c' Hl) as (Hr & Hu & _).
       unfold consistent in *; simpl.
       destruct (appState w); try (destruct H; congruence).
       destruct H as (r & c0 & Hcr & Hc0 & Hr0 & Hu0).
       rewrite Hc in Hc0; inversion Hc0; subst c0.
       exists r, c'; repeat split; congruence. }
  all: unfold perform; destruct (appState w) eqn:Ep; try exact H;
    unfold consistent in H; rewrite Ep in H.
  - unfold UsernameModal.handleSubmit; destruct (truthy _);
      unfold consistent, App.handleSetUsername; simpl; rewrite ?Ep; exact H.
  - unfold consistent, App.handleJoinRoom, ChatRoom.effect; simpl.
    destruct (socket w); simpl; eexists _, _; repeat split.
  - destruct H as (r & c & Hcr & Hc & Hr & Hu); rewrite Hc.
    unfold consistent, ChatRoom.handleTyping.
    destruct (socket w); [destruct (typingTimeoutRef c)|]; simpl; rewrite ?Ep;
      eexists _, _; repeat split; simpl; eauto; simpl; congruence.
  - destruct H as (r & c & Hcr & Hc & Hr & Hu); rewrite Hc.
    unfold ChatRoom.handleSendMessage.
    destruct (truthy _ && socket w);
      unfold consistent; simpl; rewrite Ep;
      eexists _, _; repeat split; simpl; eauto; simpl; congruence.
  - destruct H as (r & c & Hcr & Hc & Hr & Hu); rewrite Hc.
    unfold consistent, ChatRoom.handleLeaveRoom.
    destruct (socket w); simpl; auto.
Qed.

Lemma consistent_run (l : list (N * Action)) (w : World) :
  consistent w -> consistent (run w l).
Proof.
  revert w; induction l as [|ta l IH]; intros w H; [exact H|].
  apply IH, consistent_perform. exact H.
Qed.

(** X9: at every moment of a session [App] and [ChatRoom] agree: a
    [ChatRoom] is on screen exactly in the 'chat' state, and then it is
    there for [currentRoom] and under the user name [App] holds; in the
    other states there is neither a current room nor a [ChatRoom]. *)
Theorem app_and_chat_room_agree (l : list (N * Action)) :
  consistent (run App.start l).
Proof. apply consistent_run; split; reflexivity. Qed.

Lemma deliver_keeps_app (e : InEvent) (w : World) :
  appState (deliver e w) = appState w /\
  app_username (deliver e w) = app_username w /\
  currentRoom (deliver e w) = currentRoom w /\
  outbox (deliver e w) = outbox w /\
  timers (deliver e w) = timers w /\
  clock (deliver e w) = clock w.
Proof.
  destruct (deliver_frame e w) as [-> | (c & c' & _ & _ & ->)];
    repeat split; reflexivity.
Qed.

Lemma identity_perform (a : Action) (w : World) :
  appState w <> phase_username ->
  app_username (perform a w) = app_username w /\
  appState (perform a w) <> phase_username.
Proof.
  intros Hp. destruct a as [v| |r|value| | |e|r].
  8: { destruct (perform_created r w) as [-> | ->]; [auto|].
       destruct (handleCreateRoom_frame r w) as (_ & _ & _ & _ & -> & -> & _).
       split; [reflexivity | discriminate]. }
  7: { change (perform (Receive e) w) with (deliver e w).
       destruct (deliver_keeps_app e w) as (-> & -> & _); auto. }
  all: unfold perform; destruct (appState w) eqn:Ep; try contradiction;
    try destruct (chat w) as [c|]; try (rewrite Ep; split; [reflexivity|discriminate]).
  - unfold App.handleJoinRoom, ChatRoom.effect; simpl.
    destruct (socket w); split; try reflexivity; discriminate.
  - unfold App.handleJoinRoom, ChatRoom.effect; simpl.
    destruct (socket w); split; try reflexivity; discriminate.
  - unfold ChatRoom.handleTyping.
    destruct (socket w); [destruct (typingTimeoutRef c)|]; simpl; rewrite Ep;
      split; try reflexivity; discriminate.
  - unfold ChatRoom.handleSendMessage.
    destruct (truthy _ && socket w); simpl; rewrite Ep;
      split; try reflexivity; discriminate.
  - unfold ChatRoom.handleLeaveRoom.
    destruct (socket w); simpl; split; try reflexivity; discriminate.
Qed.

Lemma identity_run (l : list (N * Action)) (w : World) :
  appState w <> phase_username ->
  app_username (run w l) = app_username w /\
  appState (run w l) <> phase_username.
Proof.
  revert w; induction l as [|ta l IH]; intros w Hp; [auto|].
  destruct (identity_perform (snd ta) (advance (fst ta) w) Hp) as [Hu Hp'].
  destruct (IH (step w ta) Hp') as [IHu IHp].
  split; [|exact IHp]. simpl run; rewrite IHu; exact Hu.
Qed.

Lemma name_well_formed_perform (a : Action) (w : World) :
  (appState w <> phase_username -> well_formed (app_username w)) ->
  appState (perform a w) <> phase_username ->
  well_formed (app_username (perform a w)).
Proof.
  intros H. destruct (appState w) eqn:Ep.
  - (* the name form is on screen *)
    destruct a as [v| |r|value| | |e|r];
      try (unfold perform; rewrite Ep; rewrite ?Ep; intros []; reflexivity).
    + unfold perform; rewrite Ep; simpl; rewrite Ep; intros []; reflexivity.
    + unfold perform; rewrite Ep; unfold UsernameModal.handleSubmit.
      destruct (trim (modal_username w)) as [|x s] eqn:Et; simpl.
      * rewrite Ep; intros []; reflexivity.
      * intros _. split; [discriminate|].
        rewrite <- Et; apply trim_trim.
    + change (perform (Receive e) w) with (deliver e w).
      destruct (deliver_keeps_app e w) as (-> & _); rewrite Ep; intros [];
        reflexivity.
  - intros _.
    assert (Hp : appState w <> phase_username) by (rewrite Ep; discriminate).
    rewrite (proj1 (identity_perform a w Hp)).
    apply H; discriminate.
  - intros _.
    assert (Hp : appState w <> phase_username) by (rewrite Ep; discriminate).
    rewrite (proj1 (identity_perform a w Hp)).
    apply H; discriminate.
Qed.

Lemma name_well_formed_run (l : list (N * Action)) :
  forall w, (appState w <> phase_username -> well_formed (app_username w)) ->
            appState (run w l) <> phase_username ->
            well_formed (app_username (run w l)).
Proof.
  induction l as [|ta l IH]; intros w H; [exact H|].
  apply IH. apply name_well_formed_perform. exact H.
Qed.

(** X10: once the name form has been passed, the user name is a string
    that is not empty and has no white space at either end, it never
    changes again, and the name form never comes back. *)
Theorem identity_is_fixed_and_well_formed
  (l1 l2 : list (N * Action))
  (Hpast : appState (run App.start l1) <> phase_username) :
  let w := run App.start l1 in
  well_formed (app_username w) /\
  app_username (run w l2) = app_username w /\
  appState (run w l2) <> phase_username.
Proof.
  intros w. split; [|apply identity_run; exact Hpast].
  apply name_well_formed_run; [|exact Hpast].
  intros H; exfalso; apply H; reflexivity.
Qed.

Lemma identity_is_fixed_and_well_formed_witness :
  app_username
    (run in_R1 [(5, ClickLeave); (6, EditUsername (js "mallory"));
                (7, SubmitUsername); (8, SelectRoom R2)])
  = js "alice".
Proof.
  pose proof (identity_is_fixed_and_well_formed
    [(0, EditUsername (js " alice ")); (0, SubmitUsername); (0, SelectRoom R1)]
    [(5, ClickLeave); (6, EditUsername (js "mallory"));
     (7, SubmitUsername); (8, SelectRoom R2)]
    ltac:(discriminate)) as (_ & H & _).
  exact H.
Defined.

(** ** What is written to the socket *)

Lemma perform_effect (a : Action) (w : World) :
  socket w = true -> consistent w ->
  (outbox (perform a w) = outbox w /\
   currentRoom (perform a w) = currentRoom w) \/
  (exists r, appState w = phase_rooms /\ currentRoom w = None /\
             currentRoom (perform a w) = Some r /\
             outbox (perform a w)
             = outbox w ++ [(clock w, join_room (app_username w) (room_id r))]) \/
  (exists r, currentRoom w = Some r /\ currentRoom (perform a w) = Some r /\
             outbox (perform a w)
             = outbox w ++ [(clock w, typing (room_id r) true)]) \/
  (exists r c, currentRoom w = Some r /\ chat w = Some c /\
               currentRoom (perform a w) = Some r /\
               trim (newMessage c) <> [] /\
               outbox (perform a w)
               = outbox w ++ [(clock w, send_message (room_id r)
                                          (trim (newMessage c)));
                              (clock w, typing (room_id r) false)]) \/
  (exists r, currentRoom w = Some r /\ currentRoom (perform a w) = None /\
             outbox (perform a w)
             = outbox w ++ [(clock w, leave_room (room_id r))]) \/
  (is_creation a = true /\ appState w = phase_chat /\
   exists r, currentRoom (perform a w) = Some r /\
             outbox (perform a w)
             = outbox w ++ [(clock w, join_room (app_username w) (room_id r))]).
Proof.
  intros Hs H. destruct a as [v| |r|value| | |e|r].
  8: { unfold perform; destruct (appState w) eqn:Ep; [left; auto| |];
         unfold consistent in H; rewrite Ep in H;
         destruct (handleCreateRoom_frame r w)
           as (_ & _ & _ & _ & _ & _ & Hcr & _ & Ho);
         rewrite Hs in Ho.
       - destruct H as [Hn Hc]. rewrite Hc in Ho.
         right; left. exists r; auto.
       - destruct H as (r0 & c & _ & Hc & _ & Hu). rewrite Hc, Hu in Ho.
         do 5 right. repeat split. exists r; auto. }
  7: { change (perform (Receive e) w) with (deliver e w).
       destruct (deliver_keeps_app e w) as (_ & _ & -> & -> & _); auto. }
  all: unfold perform; destruct (appState w) eqn:Ep; try (left; auto; fail);
    unfold consistent in H; rewrite Ep in H.
  - left. unfold UsernameModal.handleSubmit; destruct (truthy _); auto.
  - right; left. exists r. destruct H as [Hcr _].
    unfold App.handleJoinRoom, ChatRoom.effect; simpl; rewrite Hs; auto.
  - destruct H as (r & c & Hcr & Hc & Hr & Hu); rewrite Hc.
    right; right; left. exists r; subst r.
    unfold ChatRoom.handleTyping; rewrite Hs.
    destruct (typingTimeoutRef c); simpl; auto.
  - destruct H as (r & c & Hcr & Hc & Hr & Hu); rewrite Hc.
    unfold ChatRoom.handleSendMessage; rewrite Hs, andb_true_r.
    destruct (trim (newMessage c)) as [|x s] eqn:Et; simpl; [left; auto|].
    do 3 right; left. exists r, c; subst r; rewrite Et.
    repeat split; auto; try discriminate.
    simpl; rewrite <- app_assoc; reflexivity.
  - destruct H as (r & c & Hcr & Hc & Hr & Hu); rewrite Hc.
    do 4 right; left. exists r; subst r.
    unfold ChatRoom.handleLeaveRoom; rewrite Hs; simpl; auto.
Qed.

Lemma session_app (l1 l2 : list (N * OutEvent)) :
  forall cur,
    session cur (l1 ++ l2)
    = match session cur l1 with
      | Some cur' => session cur' l2
      | None => None
      end.
Proof.
  induction l1 as [|[t e] l1 IH]; intros cur; [reflexivity|].
  destruct e as [u r|r|r m|r [|]]; simpl; try apply IH;
    destruct cur as [r'|]; try reflexivity; try apply IH;
    destruct (jsstring_eqb r r'); try reflexivity; apply IH.
Qed.

Lemma session_fired (tms : list Timer) (cur : option jsstring) :
  session cur (map fire tms) = Some cur.
Proof. induction tms as [|tm tms IH]; simpl; auto. Qed.

Lemma session_step (w : World) (ta : N * Action) :
  is_creation (snd ta) = false ->
  socket w = true -> consistent w ->
  session None (outbox w) = Some (option_map room_id (currentRoom w)) ->
  session None (outbox (step w ta))
  = Some (option_map room_id (currentRoom (step w ta))).
Proof.
  intros Hn Hs Hc H. unfold step.
  assert (Ha : session None (outbox (advance (fst ta) w))
               = Some (option_map room_id (currentRoom (advance (fst ta) w)))).
  { unfold advance; simpl; rewrite session_app, H; apply session_fired. }
  set (w1 := advance (fst ta) w) in *.
  assert (Hs1 : socket w1 = true) by exact Hs.
  assert (Hc1 : consistent w1) by exact Hc.
  destruct (perform_effect (snd ta) w1 Hs1 Hc1)
    as [[-> ->]|[(r & _ & Hnone & -> & ->)|[(r & Hr & -> & ->)
       |[(r & c & Hr & _ & -> & _ & ->)|[(r & Hr & -> & ->)|(Hcr & _)]]]]];
    [exact Ha | rewrite session_app, Ha ..
     | rewrite Hn in Hcr; discriminate];
    rewrite ?Hnone, ?Hr; simpl; rewrite ?jsstring_eqb_refl; reflexivity.
Qed.

(** X11: read from the server's side, what a session writes is in
    order at every moment, as long as rooms are entered by selecting
    them in the list (no room creation is answered): [join_room] and
    [leave_room] alternate, starting with a join; a leave names the
    room joined last; every [send_message] and every [typing] start
    names the room joined at that moment; and the room the log ends in
    is the room [App] holds. *)
Theorem joins_and_leaves_alternate
  (l : list (N * Action))
  (Hlist : no_creation l = true) :
  session None (outbox (run App.start l))
  = Some (option_map room_id (currentRoom (run App.start l))).
Proof.
  assert (G : forall w,
             socket w = true -> consistent w ->
             session None (outbox w) = Some (option_map room_id (currentRoom w)) ->
             session None (outbox (run w l))
             = Some (option_map room_id (currentRoom (run w l)))).
  { induction l as [|ta l IH]; intros w Hs Hc H; [exact H|].
    simpl in Hlist; apply andb_true_iff in Hlist as [Hta Hl].
    apply (IH Hl (step w ta)).
    - rewrite socket_step; exact Hs.
    - apply consistent_perform; exact Hc.
    - apply session_step; try assumption.
      apply negb_true_iff; exact Hta. }
  apply G; [reflexivity | split; reflexivity | reflexivity].
Qed.

Lemma joins_and_leaves_alternate_witness :
  session None
    (outbox (run App.start
               [(0, EditUsername (js "alice")); (0, SubmitUsername);
                (0, SelectRoom R1); (100, Keystroke (js "hi"));
                (500, SubmitMessage); (2000, ClickLeave);
                (3000, SelectRoom R2)]))
  = Some (Some (js "r2")).
Proof.
  exact (joins_and_leaves_alternate
           [(0, EditUsername (js "alice")); (0, SubmitUsername);
            (0, SelectRoom R1); (100, Keystroke (js "hi"));
            (500, SubmitMessage); (2000, ClickLeave);
            (3000, SelectRoom R2)] eq_refl).
Defined.

Lemma well_formed_step (w : World) (ta : N * Action) :
  socket w = true -> consistent w ->
  (appState w <> phase_username -> well_formed (app_username w)) ->
  Forall (fun te => well_formed_out (snd te)) (outbox w) ->
  Forall (fun te => well_formed_out (snd te)) (outbox (step w ta)).
Proof.
  intros Hs Hc Hn H. unfold step.
  assert (Ha : Forall (fun te => well_formed_out (snd te))
                 (outbox (advance (fst ta) w))).
  { unfold advance; simpl; apply Forall_app; split; [exact H|].
    apply Forall_forall; intros te Hin; apply in_map_iff in Hin
      as (tm & <- & _); exact I. }
  set (w1 := advance (fst ta) w) in *.
  assert (Hs1 : socket w1 = true) by exact Hs.
  assert (Hc1 : consistent w1) by exact Hc.
  assert (Hn1 : appState w1 <> phase_username -> well_formed (app_username w1))
    by exact Hn.
  destruct (perform_effect (snd ta) w1 Hs1 Hc1)
    as [[-> _]|[(r & Hp & _ & _ & ->)|[(r & _ & _ & ->)
       |[(r & c & _ & _ & _ & Ht & ->)|[(r & _ & _ & ->)
       |(_ & Hp & r & _ & ->)]]]]];
    [exact Ha | apply Forall_app; split; [exact Ha|] ..].
  - constructor; [|constructor]. apply Hn1; rewrite Hp; discriminate.
  - constructor; [exact I|constructor].
  - constructor; [|constructor; [exact I|constructor]].
    split; [exact Ht | apply trim_trim].
  - constructor; [exact I|constructor].
  - constructor; [|constructor]. apply Hn1; rewrite Hp; discriminate.
Qed.

(** X12: every user name that goes out in a [join_room] and every text
    that goes out in a [send_message], at any moment of a session, is
    not empty and has no white space at either end. *)
Theorem names_and_messages_go_out_trimmed (l : list (N * Action)) :
  Forall (fun te => well_formed_out (snd te)) (outbox (run App.start l)).
Proof.
  assert (G : forall w,
             socket w = true -> consistent w ->
             (appState w <> phase_username -> well_formed (app_username w)) ->
             Forall (fun te => well_formed_out (snd te)) (outbox w) ->
             Forall (fun te => well_formed_out (snd te)) (outbox (run w l))).
  { induction l as [|ta l IH]; intros w Hs Hc Hn H; [exact H|].
    apply IH.
    - rewrite socket_step; exact Hs.
    - apply consistent_perform; exact Hc.
    - apply name_well_formed_perform; exact Hn.
    - apply well_formed_step; assumption. }
  apply G; [reflexivity | split; reflexivity | | constructor].
  intros H; exfalso; apply H; reflexivity.
Qed.

(** ** Time *)

Lemma perform_frame (a : Action) (w : World) :
  clock (perform a w) = clock w /\
  (exists evs, outbox (perform a w)
               = outbox w ++ map (fun e => (clock w, e)) evs) /\
  (timers (perform a w) = timers w \/
   exists f id rid,
     timers (perform a w)
     = filter f (timers w)
         ++ [{| tid := id; due := clock w + 1000; timer_room := rid |}]).
Proof.
  assert (Hsame : forall w' : World,
            clock w' = clock w -> outbox w' = outbox w -> timers w' = timers w ->
            clock w' = clock w /\
            (exists evs, outbox w' = outbox w ++ map (fun e => (clock w, e)) evs) /\
            (timers w' = timers w \/
             exists f id rid,
               timers w' = filter f (timers w)
                 ++ [{| tid := id; due := clock w + 1000; timer_room := rid |}])).
  { intros w' H1 H2 H3; split; [exact H1|]; split; [|left; exact H3].
    exists []; simpl; rewrite app_nil_r; exact H2. }
  destruct a as [v| |r|value| | |e|r].
  8: { destruct (perform_created r w) as [-> | ->];
         [apply Hsame; reflexivity|].
       destruct (handleCreateRoom_frame r w)
         as (Ht & _ & Hc & _ & _ & _ & _ & _ & Ho).
       split; [exact Hc|]; split; [|left; exact Ht].
       rewrite Ho. destruct (socket w); [|exists []; reflexivity].
       eexists [_]; reflexivity. }
  7: { change (perform (Receive e) w) with (deliver e w).
       destruct (deliver_keeps_app e w) as (_ & _ & _ & Ho & Ht & Hc);
         apply Hsame; assumption. }
  all: unfold perform; destruct (appState w); try destruct (chat w) as [c|];
    try (apply Hsame; reflexivity).
  - unfold UsernameModal.handleSubmit; destruct (truthy _);
      apply Hsame; reflexivity.
  - unfold UsernameModal.handleSubmit; destruct (truthy _);
      apply Hsame; reflexivity.
  - unfold App.handleJoinRoom, ChatRoom.effect; simpl.
    destruct (socket w); [|apply Hsame; reflexivity].
    split; [reflexivity|]; split; [|left; reflexivity].
    exists [join_room (app_username w) (room_id r)]; reflexivity.
  - unfold App.handleJoinRoom, ChatRoom.effect; simpl.
    destruct (socket w); [|apply Hsame; reflexivity].
    split; [reflexivity|]; split; [|left; reflexivity].
    exists [join_room (app_username w) (room_id r)]; reflexivity.
  - unfold ChatRoom.handleTyping.
    destruct (socket w); [|apply Hsame; reflexivity].
    destruct (typingTimeoutRef c) as [id|]; simpl;
      (split; [reflexivity|]);
      (split; [exists [typing (room_id (room c)) true]; reflexivity|]);
      right.
    + eexists _, _, _; reflexivity.
    + exists (fun _ => true), (next_timer w), (room_id (room c)).
      f_equal. clear; induction (timers w) as [|tm l IH]; simpl; congruence.
  - unfold ChatRoom.handleSendMessage.
    destruct (truthy _ && socket w); [|apply Hsame; reflexivity].
    split; [reflexivity|]; split; [|left; reflexivity].
    exists [send_message (room_id (room c)) (trim (newMessage c));
            typing (room_id (room c)) false].
    simpl; rewrite <- app_assoc; reflexivity.
  - unfold ChatRoom.handleLeaveRoom.
    destruct (socket w); [|apply Hsame; reflexivity].
    split; [reflexivity|]; split; [|left; reflexivity].
    exists [leave_room (room_id (room c))]; reflexivity.
Qed.

Lemma StronglySorted_app {A} (R : A -> A -> Prop) (l1 l2 : list A) :
  StronglySorted R l1 -> StronglySorted R l2 ->
  (forall a b, In a l1 -> In b l2 -> R a b) ->
  StronglySorted R (l1 ++ l2).
Proof.
  induction l1 as [|x l1 IH]; intros H1 H2 H; [exact H2|].
  apply StronglySorted_inv in H1 as [H1 Hx].
  simpl; constructor.
  - apply IH; auto. intros a b Ha Hb; apply H; simpl; auto.
  - apply Forall_app; split; [exact Hx|].
    apply Forall_forall; intros b Hb; apply H; simpl; auto.
Qed.

Lemma StronglySorted_map_filter {A B} (R : B -> B -> Prop) (g : A -> B)
      (p : A -> bool) (l : list A) :
  StronglySorted R (map g l) -> StronglySorted R (map g (filter p l)).
Proof.
  induction l as [|x l IH]; intros H; [exact H|].
  simpl in H; apply StronglySorted_inv in H as [H Hx].
  simpl; destruct (p x); [|auto].
  simpl; constructor; [auto|].
  rewrite Forall_forall in *; intros b Hb; apply Hx.
  apply in_map_iff in Hb as (a & <- & Ha).
  apply in_map, (incl_filter p l), Ha.
Qed.

Lemma on_time_advance (t : N) (w : World) : on_time w -> on_time (advance t w).
Proof.
  intros (H1 & H2 & H3 & H4). unfold on_time, advance; simpl.
  rewrite Forall_forall in H2, H4.
  repeat split.
  - rewrite map_app, map_map; simpl.
    apply StronglySorted_app; [exact H1 | |].
    + apply StronglySorted_map_filter, H3.
    + intros a b Ha Hb.
      apply in_map_iff in Ha as (te & <- & Hte).
      apply in_map_iff in Hb as (tm & <- & Htm).
      apply filter_In in Htm as [Htm _].
      specialize (H2 te Hte); specialize (H4 tm Htm); lia.
  - apply Forall_app; split; apply Forall_forall.
    + intros te Hte; specialize (H2 te Hte); lia.
    + intros te Hte. apply in_map_iff in Hte as (tm & <- & Htm).
      apply filter_In in Htm as [_ Hd]. unfold is_due in Hd.
      apply N.leb_le in Hd; simpl; lia.
  - apply StronglySorted_map_filter, H3.
  - apply Forall_forall; intros tm Htm.
    apply filter_In in Htm as [Htm Hd].
    apply negb_true_iff in Hd; unfold is_due in Hd; apply N.leb_gt in Hd.
    specialize (H4 tm Htm); lia.
Qed.

Lemma on_time_perform (a : Action) (w : World) :
  on_time w -> on_time (perform a w).
Proof.
  intros (H1 & H2 & H3 & H4).
  destruct (perform_frame a w) as (Hc & (evs & Ho) & Ht).
  unfold on_time; rewrite Hc, Ho.
  assert (G1 : StronglySorted N.le
                 (map fst (outbox w ++ map (fun e => (clock w, e)) evs))).
  { rewrite map_app, map_map; simpl.
    apply StronglySorted_app; [exact H1 | |].
    - clear; induction evs as [|e evs IH]; simpl; constructor; auto.
      apply Forall_forall; intros b Hb.
      apply in_map_iff in Hb as (x & <- & _); lia.
    - rewrite Forall_forall in H2. intros a' b Ha Hb.
      apply in_map_iff in Ha as (te & <- & Hte).
      apply in_map_iff in Hb as (x & <- & _). apply H2, Hte. }
  assert (G2 : Forall (fun te => fst te <= clock w)
                 (outbox w ++ map (fun e => (clock w, e)) evs)).
  { apply Forall_app; split; [exact H2|].
    apply Forall_forall; intros te Hte.
    apply in_map_iff in Hte as (x & <- & _); simpl; lia. }
  split; [exact G1|]. split; [exact G2|].
  destruct Ht as [-> | (f & id & rid & ->)]; [auto|].
  rewrite Forall_forall in H4. split.
  - rewrite map_app; simpl.
    apply StronglySorted_app.
    + apply StronglySorted_map_filter, H3.
    + repeat constructor.
    + intros a' b Ha [<-|[]].
      apply in_map_iff in Ha as (tm & <- & Htm).
      apply filter_In in Htm as [Htm _]. apply H4, Htm.
  - apply Forall_app; split; apply Forall_forall.
    + intros tm Htm. apply filter_In in Htm as [Htm _]. apply H4, Htm.
    + intros tm [<-|[]]; simpl; lia.
Qed.

(** X13: at every moment of a session the log of what was written is
    in time order and holds nothing stamped later than now, and every
    pending typing timer is due after now and at most 1000 ms from
    now, the timers being queued in the order they are due. *)
Theorem log_and_timers_are_on_time (l : list (N * Action)) :
  on_time (run App.start l).
Proof.
  assert (G : forall w, on_time w -> on_time (run w l)).
  { induction l as [|ta l IH]; intros w H; [exact H|].
    apply IH, on_time_perform, on_time_advance, H. }
  apply G; repeat split; constructor.
Qed.

(** ** Typing stops and starts *)

Lemma started_app (r : jsstring) (log more : list (N * OutEvent)) :
  started r log -> started r (log ++ more).
Proof. intros [t H]; exists t; apply in_or_app; auto. Qed.

Lemma started_last (r : jsstring) (t : N) (log : list (N * OutEvent)) :
  started r (log ++ [(t, typing r true)]).
Proof. exists t; apply in_or_app; right; simpl; auto. Qed.

Lemma stops_follow_starts_app (log more : list (N * OutEvent)) :
  stops_follow_starts log ->
  (forall t r, In (t, typing r false) more -> started r log) ->
  stops_follow_starts (log ++ more).
Proof.
  intros H Hmore n t r Hn.
  destruct (PeanoNat.Nat.lt_ge_cases n (List.length log)) as [Hlt|Hge].
  - rewrite nth_error_app1 in Hn by exact Hlt.
    destruct (H n t r Hn) as (m & t' & Hm & Hnth).
    exists m, t'; split; [exact Hm|].
    rewrite nth_error_app1 by lia; exact Hnth.
  - rewrite nth_error_app2 in Hn by exact Hge.
    apply nth_error_In in Hn.
    destruct (Hmore t r Hn) as [t' Hin].
    apply In_nth_error in Hin as [m Hm].
    assert (Hlen : (m < List.length log)%nat)
      by (apply nth_error_Some; rewrite Hm; discriminate).
    exists m, t'; split; [lia|].
    rewrite nth_error_app1 by exact Hlen; exact Hm.
Qed.

Lemma typing_sound_advance (t : N) (w : World) :
  typing_sound w -> typing_sound (advance t w).
Proof.
  intros (H1 & H2 & H3). unfold typing_sound, advance; simpl.
  repeat split.
  - apply stops_follow_starts_app; [exact H1|].
    intros t' r Hin. apply in_map_iff in Hin as (tm & E & Htm).
    inversion E; subst. apply filter_In in Htm as [Htm _]. apply H2, Htm.
  - intros tm Htm. apply filter_In in Htm as [Htm _].
    apply started_app, H2, Htm.
  - intros c Hc Hn. apply started_app, (H3 c Hc Hn).
Qed.

Lemma trim_nil_of_nil (s : jsstring) : s = [] -> trim s = [].
Proof. intros ->; reflexivity. Qed.

Lemma typing_sound_perform (a : Action) (w : World) :
  is_creation a = false ->
  socket w = true -> typing_sound w -> typing_sound (perform a w).
Proof.
  intros Hcr Hs H. destruct a as [v| |r|value| | |e|r]; [| | | | | | |discriminate].
  7: { change (perform (Receive e) w) with (deliver e w).
       destruct (deliver_frame e w) as [-> | (c & c' & Hc & Hl & ->)]; auto.
       destruct (listener_keeps_props e c c' Hl) as (Hr & _ & Hm).
       destruct H as (H1 & H2 & H3).
       split; [exact H1|]. split; [exact H2|].
       simpl; intros c0 E Hn; inversion E; subst c0.
       rewrite Hr; apply (H3 c Hc); rewrite <- Hm; exact Hn. }
  all: unfold perform; destruct (appState w);
    try destruct (chat w) as [c|] eqn:Ec; try exact H;
    destruct H as (H1 & H2 & H3).
  - unfold UsernameModal.handleSubmit; destruct (truthy _);
      repeat split; assumption.
  - unfold UsernameModal.handleSubmit; destruct (truthy _);
      repeat split; assumption.
  - unfold App.handleJoinRoom, ChatRoom.effect; simpl; rewrite Hs.
    unfold typing_sound; simpl. repeat split.
    + apply stops_follow_starts_app; [exact H1|].
      intros t r0 [E|[]]; discriminate.
    + intros tm Htm; apply started_app, H2, Htm.
    + intros c0 E Hn; inversion E; subst c0. contradiction Hn; reflexivity.
  - unfold App.handleJoinRoom, ChatRoom.effect; simpl; rewrite Hs.
    unfold typing_sound; simpl. repeat split.
    + apply stops_follow_starts_app; [exact H1|].
      intros t r0 [E|[]]; discriminate.
    + intros tm Htm; apply started_app, H2, Htm.
    + intros c0 E Hn; inversion E; subst c0. contradiction Hn; reflexivity.
  - unfold ChatRoom.handleTyping; rewrite Hs.
    assert (G1 : stops_follow_starts
                   (outbox w ++ [(clock w, typing (room_id (room c)) true)])).
    { apply stops_follow_starts_app; [exact H1|].
      intros t r0 [E|[]]; discriminate. }
    destruct (typingTimeoutRef c) as [id|]; unfold typing_sound; simpl;
      (split; [exact G1|]); split.
    + intros tm Htm. apply in_app_or in Htm as [Htm|[<-|[]]].
      * apply filter_In in Htm as [Htm _]. apply started_app, H2, Htm.
      * apply started_last.
    + intros c0 E _; inversion E; subst c0; apply started_last.
    + intros tm Htm. apply in_app_or in Htm as [Htm|[<-|[]]].
      * apply started_app, H2, Htm.
      * apply started_last.
    + intros c0 E _; inversion E; subst c0; apply started_last.
  - unfold ChatRoom.handleSendMessage; rewrite Hs, andb_true_r.
    destruct (trim (newMessage c)) as [|x s] eqn:Et; simpl;
      [repeat split; assumption|].
    assert (Hn : newMessage c <> []).
    { intros E; rewrite (trim_nil_of_nil _ E) in Et; discriminate. }
    pose proof (H3 c Ec Hn) as Hst.
    unfold typing_sound; simpl; rewrite <- app_assoc; simpl. repeat split.
    + apply stops_follow_starts_app; [exact H1|].
      intros t r0 [E|[E|[]]]; inversion E; subst; exact Hst.
    + intros tm Htm; apply started_app, H2, Htm.
    + intros c0 E Hn0; inversion E; subst c0. contradiction Hn0; reflexivity.
  - unfold ChatRoom.handleLeaveRoom; rewrite Hs.
    unfold typing_sound; simpl. repeat split.
    + apply stops_follow_starts_app; [exact H1|].
      intros t r0 [E|[]]; discriminate.
    + intros tm Htm; apply started_app, H2, Htm.
    + discriminate.
Qed.

(** X14: at every moment of a session in which no room creation is
    answered, each [typing(room, false)] in the log, whether a timer
    or a send wrote it, comes after a [typing(room, true)] for the
    same room. *)
Theorem typing_stop_follows_a_start
  (l : list (N * Action)) (n : nat) (t : N) (r : jsstring)
  (Hlist : no_creation l = true)
  (Hstop : nth_error (outbox (run App.start l)) n = Some (t, typing r false)) :
  exists m t', (m < n)%nat /\
               nth_error (outbox (run App.start l)) m = Some (t', typing r true).
Proof.
  assert (G : forall w, socket w = true -> typing_sound w ->
                        typing_sound (run w l)).
  { clear Hstop. induction l as [|ta l IH]; intros w Hs H; [exact H|].
    simpl in Hlist; apply andb_true_iff in Hlist as [Hta Hl].
    apply (IH Hl (step w ta)); [rewrite socket_step; exact Hs|].
    apply typing_sound_perform; [apply negb_true_iff; exact Hta | exact Hs |].
    apply typing_sound_advance, H. }
  destruct (G App.start eq_refl) as (H & _).
  - repeat split.
    + intros k t0 r0 E; destruct k; discriminate.
    + intros tm [].
    + discriminate.
  - exact (H n t r Hstop).
Qed.

Lemma typing_stop_follows_a_start_witness :
  exists m t',
    (m < 3)%nat /\
    nth_error (outbox (run App.start
                         [(0, EditUsername (js "alice")); (0, SubmitUsername);
                          (0, SelectRoom R1); (100, Keystroke (js "hi"));
                          (500, SubmitMessage); (2000, ClickLeave)])) m
    = Some (t', typing (js "r1") true).
Proof.
  exact (typing_stop_follows_a_start
           [(0, EditUsername (js "alice")); (0, SubmitUsername);
            (0, SelectRoom R1); (100, Keystroke (js "hi"));
            (500, SubmitMessage); (2000, ClickLeave)]
           3 500 (js "r1") eq_refl eq_refl).
Defined.

(** ** The list of online users *)

Lemma listener_online_users (e : InEvent) (c c' : ChatRoomState) :
  ChatRoom.listener e c = Done c' ->
  onlineUsers c' = match membership e with
                   | Some f => or_empty f
                   | None => onlineUsers c
                   end.
Proof.
  destruct e as [[d|]|m|[d|]|[d|]|[d|]]; simpl; try discriminate;
    try (intros H; inversion H; reflexivity).
  unfold ChatRoom.on_user_typing; destruct (td_is_typing d);
    intros H; inversion H; reflexivity.
Qed.

Lemma step_receive_online_users (w : World) (c : ChatRoomState)
      (t : N) (e : InEvent) :
  chat w = Some c -> socket w = true ->
  exists c', chat (step w (t, Receive e)) = Some c' /\
             onlineUsers c' = match membership e with
                              | Some f => or_empty f
                              | None => onlineUsers c
                              end.
Proof.
  intros Hc Hs.
  destruct (ChatRoom.listener e c) as [c'|] eqn:El.
  - exists c'. rewrite (step_receive_done w t e c c' Hc Hs El).
    split; [reflexivity | apply (listener_online_users _ _ _ El)].
  - exists c. split.
    + unfold step.
      change (perform (snd (t, Receive e)) (advance (fst (t, Receive e)) w))
        with (deliver e (advance t w)).
      unfold deliver.
      change (chat (advance t w)) with (chat w).
      change (socket (advance t w)) with (socket w).
      rewrite Hc, Hs, El; exact Hc.
    + destruct e as [[d|]|m|[d|]|[d|]|[d|]]; try discriminate; reflexivity.
Qed.

Lemma receptions_online_users (es : list (N * InEvent)) :
  forall (w : World) (c : ChatRoomState),
    chat w = Some c -> socket w = true ->
    exists c', chat (run w (receptions es)) = Some c' /\
               (no_membership es = true -> onlineUsers c' = onlineUsers c).
Proof.
  induction es as [|[t e] es IH]; intros w c Hc Hs.
  - exists c; auto.
  - destruct (step_receive_online_users w c t e Hc Hs) as (c1 & Hc1 & Hu1).
    destruct (IH _ _ Hc1) as (c' & Hc' & Hu');
      [rewrite socket_step; exact Hs|].
    exists c'; split; [exact Hc'|].
    simpl; intros Hn. apply andb_true_iff in Hn as [Hn1 Hn2].
    rewrite (Hu' Hn2), Hu1.
    destruct (membership e); [discriminate | reflexivity].
Qed.

(** X15: the list of online users is the [users] array of the latest
    [room_joined], [user_joined] or [user_left] event (empty when that
    event has none), whatever came before it, and whatever messages,
    typing signals and payload-less events came after it. *)
Theorem online_users_are_the_latest_snapshot
  (w : World) (c : ChatRoomState) (before after : list (N * InEvent))
  (t : N) (e : InEvent) (f : field (list User))
  (Hchat : chat w = Some c)
  (Hsock : socket w = true)
  (Hsnap : membership e = Some f)
  (Hafter : no_membership after = true) :
  option_map onlineUsers
    (chat (run w (receptions (before ++ (t, e) :: after))))
  = Some (or_empty f).
Proof.
  unfold receptions, run. rewrite map_app, fold_left_app.
  fold (receptions before) (run w (receptions before)).
  destruct (receptions_online_users before w c Hchat Hsock) as (c1 & Hc1 & _).
  set (w1 := run w (receptions before)) in *.
  assert (Hs1 : socket w1 = true) by (unfold w1; rewrite socket_run; exact Hsock).
  simpl map. cbn [fold_left].
  destruct (step_receive_online_users w1 c1 t e Hc1 Hs1) as (c2 & Hc2 & Hu2).
  rewrite Hsnap in Hu2.
  fold (receptions after).
  change (fold_left step (receptions after) ?x) with (run x (receptions after)).
  destruct (receptions_online_users after _ c2 Hc2) as (c3 & Hc3 & Hu3);
    [rewrite socket_step; exact Hs1|].
  cbn [fst snd] in *. rewrite Hc3; simpl. rewrite (Hu3 Hafter), Hu2; reflexivity.
Qed.

Lemma online_users_are_the_latest_snapshot_witness :
  let u n := {| user_username := js n |} in
  option_map onlineUsers
    (chat (run in_R1
       (receptions
          ([(1, room_joined (Some {| rj_messages := Absent;
                                     rj_users := Present [u "alice"%string] |}));
            (2, user_joined (Some {| ud_users :=
                                      Present [u "alice"%string; u "bob"%string] |}))]
           ++ (3, user_left (Some {| ud_users := Present [u "alice"%string] |}))
           :: [(4, user_typing (Some {| td_username := js "bob";
                                        td_is_typing := true |}));
               (5, user_joined None)]))))
  = Some [u "alice"%string].
Proof.
  exact (online_users_are_the_latest_snapshot in_R1
           (ChatRoom.initial R1 (js "alice"))
           [(1, room_joined (Some {| rj_messages := Absent;
                                     rj_users := Present [{| user_username := js "alice" |}] |}));
            (2, user_joined (Some {| ud_users :=
                 Present [{| user_username := js "alice" |};
                          {| user_username := js "bob" |}] |}))]
           [(4, user_typing (Some {| td_username := js "bob";
                                     td_is_typing := true |}));
            (5, user_joined None)]
           3 (user_left (Some {| ud_users := Present [{| user_username := js "alice" |}] |}))
           (Present [{| user_username := js "alice" |}])
           eq_refl eq_refl eq_refl eq_refl).
Defined.

(** ** A room creation answered while a room is on screen *)

(** X16: when the answer to a room creation comes while a [ChatRoom] is
    on screen, that [ChatRoom] stays, with its messages, online users,
    typing list, input text and timer handle; only its room changes.
    [join_room] for the new room goes out, [leave_room] for the old one
    does not, and the pending timers stay.  Text typed before is then
    sent to the new room, with a [typing(room, false)] for it. *)
Theorem room_created_while_in_a_room
  (w : World) (c : ChatRoomState) (r : Room)
  (Hphase : appState w = phase_chat)
  (Hchat : chat w = Some c)
  (Hsock : socket w = true)
  (Hmsg : trim (newMessage c) <> []) :
  let w1 := perform (RoomCreated r) w in
  let w2 := perform SubmitMessage w1 in
  appState w1 = phase_chat /\ currentRoom w1 = Some r /\
  chat w1 = Some (ChatRoom.set_room r c) /\
  timers w1 = timers w /\
  outbox w1 = outbox w ++ [(clock w, join_room (username c) (room_id r))] /\
  outbox w2 = outbox w1
              ++ [(clock w, send_message (room_id r) (trim (newMessage c)));
                  (clock w, typing (room_id r) false)].
Proof.
  intros w1 w2.
  assert (E1 : w1 = App.handleCreateRoom r w).
  { unfold w1, perform; rewrite Hphase; reflexivity. }
  destruct (handleCreateRoom_frame r w)
    as (Ht & _ & Hcl & Hs & _ & Hp & Hcr & Hc & Ho).
  rewrite Hchat in Hc, Ho. rewrite Hsock in Ho, Hs.
  rewrite <- E1 in Ht, Hcl, Hs, Hp, Hcr, Hc, Ho.
  repeat split; auto.
  unfold w2, perform; rewrite Hp, Hc.
  unfold ChatRoom.handleSendMessage; cbn [newMessage ChatRoom.set_room room].
  rewrite Hs, andb_true_r.
  destruct (trim (newMessage c)) as [|x s] eqn:Et; [contradiction|].
  simpl; rewrite Hcl, <- app_assoc; reflexivity.
Qed.

Lemma room_created_while_in_a_room_witness :
  let w := run in_R1 [(0, Keystroke (js "hi"))] in
  outbox (perform SubmitMessage (perform (RoomCreated R2) w))
  = outbox w ++ [(0, join_room (js "alice") (js "r2"));
                 (0, send_message (js "r2") (js "hi"));
                 (0, typing (js "r2") false)].
Proof.
  pose proof (room_created_while_in_a_room
                (run in_R1 [(0, Keystroke (js "hi"))])
                (ChatRoom.set_typingTimeoutRef (Some 1%positive)
                   (ChatRoom.setNewMessage (js "hi")
                      (ChatRoom.initial R1 (js "alice"))))
                R2 eq_refl eq_refl eq_refl ltac:(discriminate))
    as (_ & _ & _ & _ & H1 & H2).
  exact (eq_trans H2 (eq_trans (f_equal (fun l => l ++ _) H1)
                               (eq_sym (app_assoc _ _ _)))).
Defined.
